(** * ai-review-pr: a shallow embedding of the two pipelines

    The Go program is integration glue: it shells out to [git], calls three
    REST endpoints, fills a text template, spawns the assistant and opens
    the file it wrote.  The embedding keeps that shape.  Every interaction
    with the outside (a subprocess, an HTTP request, [os.Stat], a read from
    standard input, a line printed) is an [event] that also records what
    the outside answered; a Go function becomes a computation in the [IO]
    monad below, which threads the history of events and returns the
    events it produced together with Go's [(value, error)] result.

    Go strings are byte sequences: they are modelled by [string], whose
    characters are the bytes; [len] is [String.length] and [s[:n]] is
    [substring 0 n s]. *)

From Stdlib Require Import String Ascii List ZArith Lia Bool DecimalString.
Import ListNotations.

Local Open Scope string_scope.
Local Open Scope Z_scope.

(** ** Strings and [fmt] verbs *)

Definition nl : string := String (ascii_of_nat 10) EmptyString.

(** [%d] *)
Definition fmt_d (z : Z) : string := NilZero.string_of_int (Z.to_int z).

(** Go's [len] on a string and on a slice. *)
Definition len (s : string) : Z := Z.of_nat (String.length s).
Definition len_slice {A} (l : list A) : Z := Z.of_nat (List.length l).

(** [sub] occurs in [s] as a contiguous run of bytes. *)
Definition contains (sub s : string) : Prop :=
  exists pre post, s = pre ++ sub ++ post.

Fixpoint containsb (sub s : string) : bool :=
  String.prefix sub s ||
  match s with
  | EmptyString => false
  | String _ s' => containsb sub s'
  end.

(** A Go [error] is identified with the text its [Error()] method returns;
    wrapping with [%w] in [fmt.Errorf] then is concatenation. *)
Definition error := string.

(** ** The outside world *)

Inductive Errno := ENOENT | EACCES | ENOTDIR | EIO.

(** The [err] of [os.Stat]: [nil] or a path error carrying an errno. *)
Inductive StatResult := StatOk | StatErr (e : Errno).

(** [os.IsNotExist] *)
Definition os_IsNotExist (r : StatResult) : bool :=
  match r with
  | StatErr ENOENT => true
  | _ => false
  end.

(** [exec.Cmd]: program, arguments, working directory, and whether the
    three standard streams of the caller are attached. *)
Record Cmd := mkCmd {
  cmd_name : string;
  cmd_args : list string;
  cmd_dir : option string;
  cmd_stdio : bool
}.

(** How a command is run: [Run], [Output] (captures stdout) or
    [CombinedOutput] (captures stdout and stderr). *)
Inductive ExecMode := Run | Output | CombinedOutput.

Record ExecResult := mkExecResult {
  exec_out : string;
  exec_err : option error
}.

(** resty's response, as far as the program looks at it. *)
Record Response := mkResponse {
  StatusCode : Z;
  Body : string
}.

Inductive event :=
| EPrint (s : string)
| EScanf (format : string) (r : error + Z)
| EStat (path : string) (r : StatResult)
| EExec (mode : ExecMode) (c : Cmd) (r : ExecResult)
| EHttpGet (url : string) (headers : list (string * string)) (r : error + Response).

Definition trace := list event.

(** Concatenation of traces; [++] is kept for strings. *)
Infix "+++" := (@app event) (at level 60, right associativity).

(** ** Records of cmd/raygun/types *)

Module types.

Record RaygunApplication := mkRaygunApplication {
  app_Identifier : string;
  app_Name : string
}.

Record ErrorGroup := mkErrorGroup {
  eg_Identifier : string;
  eg_Message : string;
  eg_Status : string;
  eg_Count : Z
}.

Record StackFrame := mkStackFrame {
  FileName : string;
  LineNumber : Z;
  MethodName : string
}.

Record ErrorInfo := mkErrorInfo {
  ei_Message : string;
  ClassName : string;
  StackTrace : list StackFrame
}.

Record RequestInfo := mkRequestInfo {
  URL : string;
  Method : string
}.

Record CrashReportDetail := mkCrashReportDetail {
  Error : ErrorInfo;
  Request : RequestInfo
}.

End types.

(** ** text/template, the fragment a prompt needs *)

Module template.

(** A field of the data struct: a Go [string] or a [[]byte]. *)
Inductive value := VString (s : string) | VBytes (b : string).

(** Modelled from the spec: prompt.tmpl, the file both packages embed with
    [go:embed], is not among the sources.  The spec calls it "a text
    document with placeholders filled at render time", merged with the
    prompt context, with "no sanitization of interpolated content".  A
    parsed template is a list of nodes: literal text, the action
    [{{.Name}}] and the action [{{printf "%s" .Name}}]. *)
Inductive node :=
| Text (s : string)
| Field (name : string)
| PrintfS (name : string).

Definition t := list node.

Fixpoint join (sep : string) (l : list string) : string :=
  match l with
  | [] => EmptyString
  | [x] => x
  | x :: rest => x ++ sep ++ join sep rest
  end.

Fixpoint bytes_of (s : string) : list Z :=
  match s with
  | EmptyString => []
  | String c s' => Z.of_nat (nat_of_ascii c) :: bytes_of s'
  end.

(** What [fmt.Fprint] writes for a value: a string as it is, a byte slice
    as the bracketed list of its bytes in decimal. *)
Definition print (v : value) : string :=
  match v with
  | VString s => s
  | VBytes b => "[" ++ join " " (map fmt_d (bytes_of b)) ++ "]"
  end.

(** What [printf "%s"] writes: the bytes of either. *)
Definition print_s (v : value) : string :=
  match v with
  | VString s => s
  | VBytes b => b
  end.

Definition eval_node (fields : string -> option value) (n : node) : error + string :=
  match n with
  | Text s => inr s
  | Field name =>
      match fields name with
      | Some v => inr (print v)
      | None => inl ("can't evaluate field " ++ name)
      end
  | PrintfS name =>
      match fields name with
      | Some v => inr (print_s v)
      | None => inl ("can't evaluate field " ++ name)
      end
  end.

(** [tmpl.Execute(&buf, data)]: the nodes in order; the first failing
    action ends the execution with its error. *)
Fixpoint Execute (tmpl : t) (fields : string -> option value) : error + string :=
  match tmpl with
  | [] => inr EmptyString
  | n :: rest =>
      match eval_node fields n with
      | inl e => inl e
      | inr s =>
          match Execute rest fields with
          | inl e => inl e
          | inr s' => inr (s ++ s')
          end
      end
  end.

End template.

(** ** The environment and the [IO] monad *)

(** What the outside answers.  The answer to an interaction may depend on
    everything that happened before it (a file exists once the assistant
    wrote it, a branch is there once fetched), so each oracle takes the
    history.  The library functions the program calls and whose code is
    not its own (JSON, template parsing, path resolution) are fields too. *)
Record Env := mkEnv {
  env_scanf : trace -> string -> error + Z;
  env_stat : trace -> string -> StatResult;
  env_exec : trace -> ExecMode -> Cmd -> ExecResult;
  env_http : trace -> string -> list (string * string) -> error + Response;
  os_Getenv : string -> string;
  runtime_GOOS : string;
  filepath_Abs : string -> error + string;
  strings_TrimSpace : string -> string;
  template_Parse : string -> error + template.t;
  json_Unmarshal_applications : string -> error + list types.RaygunApplication;
  json_Unmarshal_errorGroups : string -> error + list types.ErrorGroup;
  json_Unmarshal_details : string -> error + list types.CrashReportDetail;
  json_MarshalIndent_detail : types.CrashReportDetail -> error + string
}.

(** The result of a Go function returning [(T, error)]; [Panic] is a
    run-time panic (an index out of range). *)
Inductive outcome (A : Type) :=
| Ok (a : A)
| Err (e : error)
| Panic (msg : string).
Arguments Ok {A} a.
Arguments Err {A} e.
Arguments Panic {A} msg.

(** A computation reads the environment and the history so far, and
    returns the events it added, oldest first, with its outcome. *)
Definition IO (A : Type) : Type := Env -> trace -> trace * outcome A.

Definition ret {A} (a : A) : IO A := fun _ _ => ([], Ok a).
Definition fail {A} (e : error) : IO A := fun _ _ => ([], Err e).
Definition panic {A} (msg : string) : IO A := fun _ _ => ([], Panic msg).

Definition bind {A B} (m : IO A) (f : A -> IO B) : IO B :=
  fun env h =>
    let (t1, r) := m env h in
    match r with
    | Ok a => let (t2, r') := f a env (h +++ t1) in (t1 +++ t2, r')
    | Err e => (t1, Err e)
    | Panic msg => (t1, Panic msg)
    end.

Declare Scope io_scope.
Delimit Scope io_scope with io.
Notation "x <- m ;; k" := (bind m (fun x => k))
  (at level 61, m at next level, right associativity) : io_scope.
Notation "m ;;; k" := (bind m (fun _ => k))
  (at level 61, right associativity) : io_scope.
Local Open Scope io_scope.

(** [if err != nil { return fmt.Errorf(ctx + "%w", err) }] around a call. *)
Definition wrap {A} (ctx : string) (m : IO A) : IO A :=
  fun env h =>
    let (t1, r) := m env h in
    match r with
    | Err e => (t1, Err (ctx ++ e))
    | _ => (t1, r)
    end.

Definition ask {A} (f : Env -> A) : IO A := fun env _ => ([], Ok (f env)).

Definition Print (s : string) : IO unit := fun _ _ => ([EPrint s], Ok tt).

Definition Println (s : string) : IO unit := Print (s ++ nl).

(** [fmt.Scanf(format, &selection)]: the value read, or the error. *)
Definition Scanf (format : string) : IO (error + Z) :=
  fun env h => let r := env_scanf env h format in ([EScanf format r], Ok r).

Definition os_Stat (path : string) : IO StatResult :=
  fun env h => let r := env_stat env h path in ([EStat path r], Ok r).

Definition exec (mode : ExecMode) (c : Cmd) : IO ExecResult :=
  fun env h => let r := env_exec env h mode c in ([EExec mode c r], Ok r).

Definition http_Get (url : string) (headers : list (string * string)) : IO (error + Response) :=
  fun env h => let r := env_http env h url headers in ([EHttpGet url headers r], Ok r).

(** [for i, x := range l { body }] *)
Fixpoint for_range {A} (i : Z) (l : list A) (body : Z -> A -> IO unit) : IO unit :=
  match l with
  | [] => ret tt
  | x :: rest => body i x ;;; for_range (i + 1) rest body
  end.

(** [filepath.Join(dir, name)] for a cleaned absolute [dir], as
    [filepath.Abs] returns it, and a plain file name. *)
Definition filepath_Join (dir name : string) : string :=
  if String.eqb dir "/" then dir ++ name else dir ++ "/" ++ name.

(** [exec.Command(name, args...)] with [cmd.Dir = dir]. *)
Definition Command (dir : option string) (name : string) (args : list string) : Cmd :=
  mkCmd name args dir false.

(** The same with [cmd.Stdout], [cmd.Stderr] and [cmd.Stdin] set to those
    of the process. *)
Definition CommandStdio (dir : option string) (name : string) (args : list string) : Cmd :=
  mkCmd name args dir true.

(** [l[i]]: a panic when [i] is out of range. *)
Definition index {A} (l : list A) (i : Z) : IO A :=
  if i <? 0 then panic "index out of range"
  else match nth_error l (Z.to_nat i) with
       | Some x => ret x
       | None => panic "index out of range"
       end.

(** ** github.com/samber/lo *)

Module lo.

Fixpoint Filter_from {A} (i : Z) (collection : list A) (predicate : A -> Z -> bool) : list A :=
  match collection with
  | [] => []
  | x :: rest =>
      if predicate x i then x :: Filter_from (i + 1) rest predicate
      else Filter_from (i + 1) rest predicate
  end.

(** [lo.Filter]: the elements the predicate accepts, in order; the
    predicate also gets the index. *)
Definition Filter {A} (collection : list A) (predicate : A -> Z -> bool) : list A :=
  Filter_from 0 collection predicate.

(** [lo.Find]: the first element the predicate accepts. *)
Fixpoint Find {A} (collection : list A) (predicate : A -> bool) : option A :=
  match collection with
  | [] => None
  | x :: rest => if predicate x then Some x else Find rest predicate
  end.

End lo.

(** ** utils/claude/claude.go *)

Module claude.

Definition ClaudeModelHaiku : string := "Haiku".
Definition ClaudeModelSonnet : string := "Sonnet".

Definition LaunchClaude (repoDir outputFilePath prompt : string) (model : option string) : IO unit :=
  let claudeModel :=
    match model with
    | Some m => if String.eqb m EmptyString then ClaudeModelSonnet else m
    | None => ClaudeModelSonnet
    end in
  r <- exec Run (CommandStdio (Some repoDir) "claude"
                   ["--model=" ++ claudeModel; "--dangerously-skip-permissions"; "-p"; prompt]) ;;
  match exec_err r with
  | Some err => fail ("failed to run claude: " ++ err)
  | None =>
      (* Open the output file after completion *)
      st <- os_Stat outputFilePath ;;
      match st with
      | StatOk =>
          Print ("Opening output file: " ++ outputFilePath ++ nl) ;;;
          o <- exec Run (Command None "open" [outputFilePath]) ;;
          match exec_err o with
          | Some err => Print ("Warning: could not open output file: " ++ err ++ nl)
          | None => ret tt
          end
      | StatErr _ => ret tt
      end
  end.

End claude.

(** ** cmd/ai-review/ai-review.go *)

Module ai_review.

(** The package-level variables: the three flags and the embedded
    template text. *)
Record Vars := mkVars {
  promptTemplate : string;
  flagBranch : string;
  flagTargetBranch : string;
  flagRepoPath : string
}.

Definition claudeModelSonnet : string := "Sonnet".

Definition getCurrentBranch (repoDir : string) : IO string :=
  r <- exec Output (Command (Some repoDir) "git" ["rev-parse"; "--abbrev-ref"; "HEAD"]) ;;
  match exec_err r with
  | Some err => fail err
  | None => ask (fun env => strings_TrimSpace env (exec_out r))
  end.

Definition getDiff (repoDir branchName targetBranch : string) : IO string :=
  Print ("Getting diff between " ++ branchName ++ " and " ++ targetBranch ++ "..." ++ nl) ;;;
  (* Try with origin/ prefix first, fall back to local branch *)
  let targetRef := "origin/" ++ targetBranch in
  (* Check if origin/target exists *)
  chk <- exec Run (Command (Some repoDir) "git" ["rev-parse"; "--verify"; targetRef]) ;;
  let targetRef :=
    match exec_err chk with
    | Some _ => targetBranch
    | None => targetRef
    end in
  (* Get the diff stats first *)
  st <- exec Output (Command (Some repoDir) "git" ["diff"; "--stat"; targetRef ++ "...HEAD"]) ;;
  statsOutput <-
    match exec_err st with
    | Some _ =>
        (* Try without the three-dot syntax *)
        st <- exec Output (Command (Some repoDir) "git" ["diff"; "--stat"; targetRef]) ;;
        match exec_err st with
        | Some err => fail ("failed to get diff stats: " ++ err)
        | None => ret (exec_out st)
        end
    | None => ret (exec_out st)
    end ;;
  (* Get the full diff *)
  df <- exec Output (Command (Some repoDir) "git" ["diff"; targetRef ++ "...HEAD"]) ;;
  diffOutput <-
    match exec_err df with
    | Some _ =>
        (* Try without the three-dot syntax *)
        df <- exec Output (Command (Some repoDir) "git" ["diff"; targetRef]) ;;
        match exec_err df with
        | Some err => fail ("failed to get diff: " ++ err)
        | None => ret (exec_out df)
        end
    | None => ret (exec_out df)
    end ;;
  (* Combine stats and diff *)
  ret ("=== DIFF STATS ===" ++ nl ++ statsOutput ++ nl ++ nl
         ++ "=== FULL DIFF ===" ++ nl ++ diffOutput).

(** promptData holds the data for the review prompt template *)
Record promptData := mkPromptData {
  BranchName : string;
  TargetBranch : string;
  Diff : string;
  ReviewFilePath : string
}.

(** The fields of [promptData] as the template engine looks them up. *)
Definition promptData_fields (d : promptData) (name : string) : option template.value :=
  if String.eqb name "BranchName" then Some (template.VString (BranchName d))
  else if String.eqb name "TargetBranch" then Some (template.VString (TargetBranch d))
  else if String.eqb name "Diff" then Some (template.VString (Diff d))
  else if String.eqb name "ReviewFilePath" then Some (template.VString (ReviewFilePath d))
  else None.

Definition launchClaudeReview (v : Vars) (repoDir branchName diff : string) : IO unit :=
  Println "Launching Claude Code for review..." ;;;
  let reviewFilePath := filepath_Join repoDir "Review.md" in
  (* Build prompt from template *)
  let data := mkPromptData branchName (flagTargetBranch v) diff reviewFilePath in
  parsed <- ask (fun env => template_Parse env (promptTemplate v)) ;;
  match parsed with
  | inl err => fail ("failed to parse prompt template: " ++ err)
  | inr tmpl =>
      match template.Execute tmpl (promptData_fields data) with
      | inl err => fail ("failed to execute prompt template: " ++ err)
      | inr prompt =>
          (* Launch claude with the prompt *)
          r <- exec Run (CommandStdio (Some repoDir) "claude"
                           ["--model=" ++ claudeModelSonnet; "--dangerously-skip-permissions";
                            "-p"; prompt]) ;;
          match exec_err r with
          | Some err => fail ("failed to run claude: " ++ err)
          | None =>
              (* Open the review file after completion *)
              st <- os_Stat reviewFilePath ;;
              match st with
              | StatOk =>
                  Print ("Opening review file: " ++ reviewFilePath ++ nl) ;;;
                  o <- exec Run (Command None "open" [reviewFilePath]) ;;
                  match exec_err o with
                  | Some err => Print ("Warning: could not open review file: " ++ err ++ nl)
                  | None => ret tt
                  end
              | StatErr _ => ret tt
              end
          end
      end
  end.

(** Lines 53-62 of [start]: resolve the repo path and verify it is a git
    repository. *)
Definition start_resolveRepo (v : Vars) : IO string :=
  abs <- ask (fun env => filepath_Abs env (flagRepoPath v)) ;;
  match abs with
  | inl err => fail ("failed to resolve repo path: " ++ err)
  | inr repoPath =>
      st <- os_Stat (filepath_Join repoPath ".git") ;;
      if os_IsNotExist st then fail ("not a git repository: " ++ repoPath)
      else ret repoPath
  end.

Definition start (v : Vars) : IO unit :=
  repoPath <- start_resolveRepo v ;;
  Print ("Reviewing repository: " ++ repoPath ++ nl) ;;;
  (* Get current branch if not specified *)
  branchName <-
    (if String.eqb (flagBranch v) EmptyString
     then wrap "failed to get current branch: " (getCurrentBranch repoPath)
     else ret (flagBranch v)) ;;
  Print ("Branch: " ++ branchName ++ " (comparing against " ++ flagTargetBranch v ++ ")" ++ nl) ;;;
  (* Get diff between current branch and target branch *)
  diff <- wrap "failed to get diff: " (getDiff repoPath branchName (flagTargetBranch v)) ;;
  trimmed <- ask (fun env => strings_TrimSpace env diff) ;;
  if String.eqb trimmed EmptyString then
    Println "No differences found between branches."
  else
    (* Launch Claude Code with the review prompt *)
    wrap "failed to launch Claude review: " (launchClaudeReview v repoPath branchName diff) ;;;
    Println "Claude code review complete.".

End ai_review.

(** ** cmd/raygun/errors: the errors pipeline (package analyze) *)

Module analyze.

Import types.

Definition raygunAPIBase : string := "https://api.raygun.com/v3".
Definition claudeModelHaiku : string := "Haiku".

(** The package-level variables: the four flags and the embedded
    template text. *)
Record Vars := mkVars {
  promptTemplate : string;
  raygunProject : string;
  raygunToken : string;
  repoPath : string;
  branch : string
}.

(** The two headers every request carries. *)
Definition headers (token : string) : list (string * string) :=
  [("Authorization", "Bearer " ++ token); ("Content-Type", "application/json")].

(** fetchApplications retrieves all applications from Raygun API *)
Definition fetchApplications (token : string) (count : Z) : IO (list RaygunApplication) :=
  let endpointURL := raygunAPIBase ++ "/applications?count=" ++ fmt_d count in
  r <- http_Get endpointURL (headers token) ;;
  match r with
  | inl err => fail ("failed to fetch applications: " ++ err)
  | inr response =>
      if negb (StatusCode response =? 200) then
        fail ("raygun API returned status " ++ fmt_d (StatusCode response) ++ ": " ++ Body response)
      else
        dec <- ask (fun env => json_Unmarshal_applications env (Body response)) ;;
        match dec with
        | inl err => fail ("failed to decode applications: " ++ err)
        | inr applications => ret applications
        end
  end.

(** listErrorGroups fetches error groups from Raygun *)
Definition listErrorGroups (token : string) (app : RaygunApplication) : IO (list ErrorGroup) :=
  let endpointURL := raygunAPIBase ++ "/applications/" ++ app_Identifier app ++ "/error-groups" in
  r <- http_Get endpointURL (headers token) ;;
  match r with
  | inl err => fail ("failed to fetch error groups: " ++ err)
  | inr response =>
      if negb (StatusCode response =? 200) then
        fail ("raygun API returned status " ++ fmt_d (StatusCode response) ++ ": " ++ Body response)
      else
        dec <- ask (fun env => json_Unmarshal_errorGroups env (Body response)) ;;
        match dec with
        | inl err => fail ("failed to decode error groups: " ++ err)
        | inr errorGroups => ret errorGroups
        end
  end.

(** getErrorReportDetail fetches detailed error information *)
Definition getErrorReportDetail (token appIdentifier errorGroupIdentifier : string)
  : IO CrashReportDetail :=
  let endpointURL := raygunAPIBase ++ "/applications/" ++ appIdentifier ++ "/error-groups/"
                       ++ errorGroupIdentifier ++ "/errors?count=1" in
  r <- http_Get endpointURL (headers token) ;;
  match r with
  | inl err => fail ("failed to fetch error detail: " ++ err)
  | inr response =>
      if negb (StatusCode response =? 200) then
        fail ("raygun API returned status " ++ fmt_d (StatusCode response) ++ ": " ++ Body response)
      else
        dec <- ask (fun env => json_Unmarshal_details env (Body response)) ;;
        match dec with
        | inl err => fail ("failed to decode error detail: " ++ err)
        | inr details =>
            if len_slice details =? 0 then fail "no error details found"
            else index details 0
        end
  end.

(** chooseRaygunApplication fetches and prompts user to select a Raygun
    application *)
Definition chooseRaygunApplication (v : Vars) (token : string) : IO RaygunApplication :=
  applications <- wrap "failed to fetch applications: " (fetchApplications token 20) ;;
  if len_slice applications =? 0 then fail "no applications found"
  else if negb (String.eqb (raygunProject v) EmptyString) then
    match lo.Find applications (fun app => String.eqb (app_Name app) (raygunProject v)) with
    | Some application => ret application
    | None => fail ("raygun project '" ++ raygunProject v ++ "' not found")
    end
  else
    (* Build display options *)
    Println "Available Raygun projects:" ;;;
    for_range 0 applications (fun i app =>
      Print ("  " ++ fmt_d (i + 1) ++ ". " ++ app_Name app ++ nl)) ;;;
    Print (nl ++ "Select project number: ") ;;;
    r <- Scanf "%d" ;;
    match r with
    | inl err => fail ("invalid selection: " ++ err)
    | inr selection =>
        if (selection <? 1) || (len_slice applications <? selection) then
          fail "selection out of range"
        else index applications (selection - 1)
    end.

(** Lines 248-251 of [chooseErrorGroup]: truncate message if too long. *)
Definition truncateMessage (msg : string) : string :=
  if 80 <? len msg then substring 0 77 msg ++ "..." else msg.

(** The line [chooseErrorGroup] prints for the group at index [i]. *)
Definition errorGroupLine (i : Z) (eg : ErrorGroup) : string :=
  "  " ++ fmt_d (i + 1) ++ ". [" ++ fmt_d (eg_Count eg) ++ " occurrences] "
    ++ truncateMessage (eg_Message eg) ++ nl.

(** chooseErrorGroup prompts user to select an error group *)
Definition chooseErrorGroup (errorGroups : list ErrorGroup) : IO ErrorGroup :=
  Println (nl ++ "Active error groups:") ;;;
  for_range 0 errorGroups (fun i eg => Print (errorGroupLine i eg)) ;;;
  Print (nl ++ "Select error group number: ") ;;;
  r <- Scanf "%d" ;;
  match r with
  | inl err => fail ("invalid selection: " ++ err)
  | inr selection =>
      if (selection <? 1) || (len_slice errorGroups <? selection) then
        fail "selection out of range"
      else index errorGroups (selection - 1)
  end.

Definition checkoutBranch (repoDir branchName : string) : IO unit :=
  (* Fetch latest *)
  exec Run (Command (Some repoDir) "git" ["fetch"; "--all"]) ;;; (* Ignore fetch errors *)
  (* Checkout branch *)
  co <- exec CombinedOutput (Command (Some repoDir) "git" ["checkout"; branchName]) ;;
  match exec_err co with
  | Some err =>
      fail ("failed to checkout branch " ++ branchName ++ ": " ++ err ++ nl ++ exec_out co)
  | None =>
      (* Pull latest *)
      exec Run (Command (Some repoDir) "git" ["pull"]) ;;; (* Ignore pull errors *)
      Print ("Checked out branch: " ++ branchName ++ nl)
  end.

(** promptData holds the data for the crash analysis prompt template *)
Record promptData := mkPromptData {
  ErrorMessage : string;
  CrashDetails : string;
  AnalysisFilePath : string
}.

(** The fields of [promptData] as the template engine looks them up;
    [CrashDetails] is a [[]byte]. *)
Definition promptData_fields (d : promptData) (name : string) : option template.value :=
  if String.eqb name "ErrorMessage" then Some (template.VString (ErrorMessage d))
  else if String.eqb name "CrashDetails" then Some (template.VBytes (CrashDetails d))
  else if String.eqb name "AnalysisFilePath" then Some (template.VString (AnalysisFilePath d))
  else None.

Definition launchClaudeErrorAnalysis (v : Vars) (repoDir errorFilePath : string)
    (crashDetail : CrashReportDetail) : IO unit :=
  Println "Launching Claude Code for crash analysis..." ;;;
  (* Convert struct to json *)
  js <- ask (fun env => json_MarshalIndent_detail env crashDetail) ;;
  match js with
  | inl err => fail ("failed to marshal crash detail: " ++ err)
  | inr crashDetailJson =>
      let data := mkPromptData (ei_Message (Error crashDetail)) crashDetailJson errorFilePath in
      parsed <- ask (fun env => template_Parse env (promptTemplate v)) ;;
      match parsed with
      | inl err => fail ("failed to parse prompt template: " ++ err)
      | inr tmpl =>
          match template.Execute tmpl (promptData_fields data) with
          | inl err => fail ("failed to execute prompt template: " ++ err)
          | inr prompt =>
              (* Launch claude with the prompt *)
              r <- exec Run (CommandStdio (Some repoDir) "claude"
                               ["--model=" ++ claudeModelHaiku; "--dangerously-skip-permissions";
                                "-p"; prompt]) ;;
              match exec_err r with
              | Some err => fail ("failed to run claude: " ++ err)
              | None =>
                  (* Open the output file after completion *)
                  st <- os_Stat errorFilePath ;;
                  match st with
                  | StatOk =>
                      Print ("Opening output file: " ++ errorFilePath ++ nl) ;;;
                      o <- exec Run (Command None "open" [errorFilePath]) ;;
                      match exec_err o with
                      | Some err => Print ("Warning: could not open output file: " ++ err ++ nl)
                      | None => ret tt
                      end
                  | StatErr _ => ret tt
                  end
              end
          end
      end
  end.

(** Lines 70-77 of [start]: get Raygun token. *)
Definition start_token (v : Vars) : IO string :=
  token <- (if String.eqb (raygunToken v) EmptyString
            then ask (fun env => os_Getenv env "RAYGUN_TOKEN")
            else ret (raygunToken v)) ;;
  if String.eqb token EmptyString then
    fail "raygun token required: use --token flag or set RAYGUN_TOKEN environment variable"
  else ret token.

(** Lines 79-88 of [start]: resolve the repo path and verify it is a git
    repository. *)
Definition start_resolveRepo (v : Vars) : IO string :=
  abs <- ask (fun env => filepath_Abs env (repoPath v)) ;;
  match abs with
  | inl err => fail ("failed to resolve repo path: " ++ err)
  | inr absRepoPath =>
      st <- os_Stat (filepath_Join absRepoPath ".git") ;;
      if os_IsNotExist st then fail ("not a git repository: " ++ absRepoPath)
      else ret absRepoPath
  end.

(** Lines 90-102 of [start]: choose the application and list its crash
    groups. *)
Definition start_fetch (v : Vars) (token : string) : IO (RaygunApplication * list ErrorGroup) :=
  raygunApp <- wrap "error selecting project: " (chooseRaygunApplication v token) ;;
  Print ("Selected raygun project: " ++ app_Name raygunApp ++ nl ++ nl) ;;;
  errorGroups <- wrap "error fetching crash reports: " (listErrorGroups token raygunApp) ;;
  ret (raygunApp, errorGroups).

(** The predicate of the filter at line 110. *)
Definition isActive (errorGroup : ErrorGroup) (_ : Z) : bool :=
  String.eqb (eg_Status errorGroup) "active".

(** Lines 104-148 of [start]: from the fetched crash groups to the end. *)
Definition start_analyze (v : Vars) (token absRepoPath : string)
    (raygunApp : RaygunApplication) (errorGroups : list ErrorGroup) : IO unit :=
  if len_slice errorGroups =? 0 then
    Println "No crash reports found for this project."
  else
    (* Show only error groups that have a status of active *)
    let activeErrorGroups := lo.Filter errorGroups isActive in
    if len_slice activeErrorGroups =? 0 then
      Println "No active crash reports found for this project."
    else
      (* Choose a crash report *)
      selectedErrorGroup <- wrap "error selecting crash: " (chooseErrorGroup activeErrorGroups) ;;
      Print (nl ++ "Analyzing crash: " ++ eg_Message selectedErrorGroup ++ nl) ;;;
      (* Get detailed crash data *)
      errorDetail <- wrap "error fetching crash details: "
        (getErrorReportDetail token (app_Identifier raygunApp) (eg_Identifier selectedErrorGroup)) ;;
      (* Checkout branch if specified *)
      (if negb (String.eqb (branch v) EmptyString)
       then wrap "error checking out branch: " (checkoutBranch absRepoPath (branch v))
       else ret tt) ;;;
      (* Launch Claude Code with the crash analysis prompt *)
      let raygunErrorFilePath := filepath_Join absRepoPath "RaygunError.md" in
      wrap "error launching Claude analysis: "
        (launchClaudeErrorAnalysis v absRepoPath raygunErrorFilePath errorDetail) ;;;
      Println (nl ++ "Claude error analysis complete").

Definition start (v : Vars) : IO unit :=
  token <- start_token v ;;
  absRepoPath <- start_resolveRepo v ;;
  fetched <- start_fetch v token ;;
  start_analyze v token absRepoPath (fst fetched) (snd fetched).

End analyze.

(** ** UTF-8 *)

Module utf8.

Definition byte (c : ascii) : Z := Z.of_nat (nat_of_ascii c).

(** A continuation byte, 10xxxxxx. *)
Definition is_continuation (b : Z) : bool := (128 <=? b) && (b <=? 191).

(** One pass over the bytes: [need] continuation bytes are still owed to
    the current character, the next of them within [lo..hi]. *)
Fixpoint scan (s : string) (need : nat) (lo hi : Z) : bool :=
  match s with
  | EmptyString => Nat.eqb need 0
  | String c rest =>
      let b := byte c in
      match need with
      | O =>
          if b <? 128 then scan rest 0 128 191
          else if (194 <=? b) && (b <=? 223) then scan rest 1 128 191
          else if b =? 224 then scan rest 2 160 191
          else if (225 <=? b) && (b <=? 236) then scan rest 2 128 191
          else if b =? 237 then scan rest 2 128 159
          else if (238 <=? b) && (b <=? 239) then scan rest 2 128 191
          else if b =? 240 then scan rest 3 144 191
          else if (241 <=? b) && (b <=? 243) then scan rest 3 128 191
          else if b =? 244 then scan rest 3 128 143
          else false
      | S n => if (lo <=? b) && (b <=? hi) then scan rest n 128 191 else false
      end
  end.

(** [utf8.ValidString] *)
Definition ValidString (s : string) : bool := scan s 0 128 191.

(** Cutting [s] before byte [n] falls inside a character: byte [n] is
    there and is a continuation byte. *)
Definition splits (s : string) (n : nat) : bool :=
  match String.get n s with
  | Some c => is_continuation (byte c)
  | None => false
  end.

End utf8.

(** ** Reading a trace *)

(** The reads from standard input, in order. *)
Definition scans (tr : trace) : list (error + Z) :=
  flat_map (fun e => match e with EScanf _ r => [r] | _ => [] end) tr.

(** What was written to standard output, in order. *)
Definition printed (tr : trace) : list string :=
  flat_map (fun e => match e with EPrint s => [s] | _ => [] end) tr.

(** The commands run, in order. *)
Definition commands (tr : trace) : list Cmd :=
  flat_map (fun e => match e with EExec _ c _ => [c] | _ => [] end) tr.

(** The elements of a list with their indices, from [i] on. *)
Fixpoint numbered {A} (i : Z) (l : list A) : list (Z * A) :=
  match l with
  | [] => []
  | x :: rest => (i, x) :: numbered (i + 1) rest
  end.


(** The spec's error classes, told apart by the message the code builds. *)
Definition SelectionError (e : error) : Prop :=
  e = "selection out of range" \/ exists d, e = "invalid selection: " ++ d.

Definition NotAGitRepoError (e : error) : Prop :=
  exists path, e = "not a git repository: " ++ path.

(** The numbered list and the prompt [chooseErrorGroup] shows for
    [groups], before it reads the choice. *)
Definition errorGroupMenu (groups : list types.ErrorGroup) : trace :=
  EPrint (nl ++ "Active error groups:" ++ nl)
  :: map (fun ig => EPrint (analyze.errorGroupLine (fst ig) (snd ig))) (numbered 0 groups)
  +++ [EPrint (nl ++ "Select error group number: ")].

(** The numbered list and the prompt [chooseRaygunApplication] shows. *)
Definition applicationMenu (apps : list types.RaygunApplication) : trace :=
  EPrint ("Available Raygun projects:" ++ nl)
  :: map (fun ia => EPrint ("  " ++ fmt_d (fst ia + 1) ++ ". " ++ types.app_Name (snd ia) ++ nl))
       (numbered 0 apps)
  +++ [EPrint (nl ++ "Select project number: ")].

(** What a selector returns for the answer [r] of the read, on a list of
    [N] items: the item at 1-based position [n] when [n] is in [1..N], a
    selection error otherwise. *)
Definition selected {A} (items : list A) (r : error + Z) (res : outcome A) : Prop :=
  match r with
  | inr n =>
      (1 <= n <= len_slice items ->
         exists x, nth_error items (Z.to_nat (n - 1)) = Some x /\ res = Ok x)
      /\ (~ 1 <= n <= len_slice items -> exists e, res = Err e /\ SelectionError e)
  | inl _ => exists e, res = Err e /\ SelectionError e
  end.








(** The best-effort git commands of [checkoutBranch]. *)
Definition best_effort (c : Cmd) : Prop :=
  cmd_name c = "git" /\ (cmd_args c = ["fetch"; "--all"] \/ cmd_args c = ["pull"]).

(** The failures of the best-effort commands of a run [tr] of
    [checkoutBranch] are surfaced when, after each of them that failed, a
    line is printed that is not the checkout confirmation. *)
Definition failures_surfaced (branchName : string) (tr : trace) : Prop :=
  forall pre mode c r err post,
    tr = pre +++ EExec mode c r :: post ->
    best_effort c ->
    exec_err r = Some err ->
    exists line,
      In line (printed post) /\ line <> "Checked out branch: " ++ branchName ++ nl.

(** The contract of a crash-service call [call] that requests [url]: what
    it returns for the response the service gave.  [decode] is the JSON
    decoder of the call and [finish] what the call makes of the decoded
    list. *)
Definition error_contract {A B} (call : IO B) (url token : string)
    (decode : string -> error + A) (finish : A -> outcome B) (env : Env) (h : trace) : Prop :=
  forall response,
    env_http env h url (analyze.headers token) = inr response ->
    fst (call env h) = [EHttpGet url (analyze.headers token) (inr response)]
    /\ (StatusCode response <> 200 ->
          exists e, snd (call env h) = Err e
                    /\ contains (fmt_d (StatusCode response)) e
                    /\ contains (Body response) e)
    /\ (StatusCode response = 200 ->
          match decode (Body response) with
          | inl derr => exists e, snd (call env h) = Err e /\ contains derr e
          | inr a => snd (call env h) = finish a
          end).

(** The two lines with which [start] ends when there is nothing to
    select. *)
Definition noCrashReports : string := "No crash reports found for this project." ++ nl.
Definition noActiveCrashReports : string :=
  "No active crash reports found for this project." ++ nl.

(** What both selectors do with the answer of the read (lines 257-265
    of [chooseErrorGroup], 180-188 of [chooseRaygunApplication]). *)
Definition after_scan {A} (items : list A) (r : error + Z) : IO A :=
  match r with
  | inl err => fail ("invalid selection: " ++ err)
  | inr selection =>
      if (selection <? 1) || (len_slice items <? selection)
      then fail "selection out of range"
      else index items (selection - 1)
  end.

(** ** fmt.Scanf with the verb %d *)

Module scan.

(** Go's [fmt] scanner, as far as [fmt.Scanf("%d", &selection)] with
    [selection] an [int] runs it: [doScanf] skips the space before the
    verb and calls [scanInt], which reads an optional sign and a run of
    decimal digits and converts them with [strconv.ParseInt].  The input
    is the runes standard input holds when the read starts (fewer than
    the scanner's width limit of 2^30); the scanner stops at the first
    rune that is not part of the number and what it leaves behind is not
    examined.  Each [failure] is returned by [Scanf] as its error. *)

Definition rune := Z.

Inductive failure :=
| UnexpectedNewline
| EndOfInput
| ExpectedInteger
| InvalidSyntax
| ValueOutOfRange
| IntegerOverflow.

(** The runes of an ASCII text. *)
Definition runes (s : string) : list rune :=
  map (fun c => Z.of_nat (nat_of_ascii c)) (list_ascii_of_string s).

(** The ranges of [unicode.White_Space] the scanner keeps. *)
Definition space : list (Z * Z) :=
  [(9, 13); (32, 32); (133, 133); (160, 160); (5760, 5760); (8192, 8202);
   (8232, 8233); (8239, 8239); (8287, 8287); (12288, 12288)].

Fixpoint in_ranges (r : rune) (ranges : list (Z * Z)) : bool :=
  match ranges with
  | [] => false
  | (lo, hi) :: rest =>
      if r <? lo then false
      else if r <=? hi then true
      else in_ranges r rest
  end.

Definition isSpace (r : rune) : bool :=
  if 65536 <=? r then false else in_ranges r space.

Definition indexRune (ok : list rune) (r : rune) : bool := existsb (Z.eqb r) ok.

Definition sign : list rune := runes "+-".
Definition decimalDigits : list rune := runes "0123456789".

(** [s.peek(ok)]: whether the next rune is in [ok]. *)
Definition peek (ok : list rune) (input : list rune) : bool :=
  match input with
  | [] => false
  | r :: _ => indexRune ok r
  end.

(** [s.SkipSpace()], with newlines not counted as space, as [Fscanf]
    sets the scanner up: space is skipped up to the first other rune,
    and a newline met on the way is an error. *)
Fixpoint SkipSpace (input : list rune) : failure + list rune :=
  match input with
  | [] => inr []
  | r :: rest =>
      if (r =? 13) && peek [10] rest then SkipSpace rest
      else if r =? 10 then inl UnexpectedNewline
      else if negb (isSpace r) then inr (r :: rest)
      else SkipSpace rest
  end.

(** [s.accept(ok)]: the next rune is taken when it is in [ok]. *)
Definition accept (ok : list rune) (input : list rune) : option rune * list rune :=
  match input with
  | [] => (None, [])
  | r :: rest => if indexRune ok r then (Some r, rest) else (None, r :: rest)
  end.

(** [for s.accept(ok) {}]: the longest run of runes of [ok]. *)
Fixpoint accept_all (ok : list rune) (input : list rune) : list rune * list rune :=
  match input with
  | [] => ([], [])
  | r :: rest =>
      if indexRune ok r
      then let (tok, rest') := accept_all ok rest in (r :: tok, rest')
      else ([], r :: rest)
  end.

(** [s.scanNumber(digits, false)]: the input must not be at its end and
    must start with a digit; the digits that follow are taken too. *)
Definition scanNumber (digits : list rune) (input : list rune)
  : failure + (list rune * list rune) :=
  match input with
  | [] => inl EndOfInput
  | _ =>
      match accept digits input with
      | (None, _) => inl ExpectedInteger
      | (Some d, rest) => let (tok, rest') := accept_all digits rest in inr (d :: tok, rest')
      end
  end.

(** The number a run of decimal digits spells. *)
Definition decimal (s : list rune) : Z := fold_left (fun n d => 10 * n + (d - 48)) s 0.

(** [strconv.ParseUint(s, 10, 64)] on the digits: the value is kept as it
    is, since [ParseInt] rejects every value that does not fit. *)
Definition ParseUint (s : list rune) : failure + Z :=
  match s with
  | [] => inl InvalidSyntax
  | _ => if forallb (indexRune decimalDigits) s then inr (decimal s) else inl InvalidSyntax
  end.

(** [strconv.ParseInt(s, 10, bitSize)]: the sign is picked off, the
    digits are converted and the range is checked. *)
Definition ParseInt (s : list rune) (bitSize : Z) : failure + Z :=
  match s with
  | [] => inl InvalidSyntax
  | c :: s' =>
      let neg := c =? 45 in
      let digits := if (c =? 43) || (c =? 45) then s' else s in
      match ParseUint digits with
      | inl f => inl f
      | inr un =>
          let cutoff := 2 ^ (bitSize - 1) in
          if negb neg && (cutoff <=? un) then inl ValueOutOfRange
          else if neg && (cutoff <? un) then inl ValueOutOfRange
          else inr (if neg then - un else un)
      end
  end.

(** The size of an [int], on a 64-bit platform. *)
Definition intBits : Z := 64.

(** [s.scanInt('d', bitSize)]. *)
Definition scanInt (bitSize : Z) (input : list rune) : failure + Z :=
  match SkipSpace input with
  | inl f => inl f
  | inr [] => inl EndOfInput
  | inr input =>
      let (sg, input) := accept sign input in
      match scanNumber decimalDigits input with
      | inl f => inl f
      | inr (digits, _) =>
          let tok := match sg with Some c => c :: digits | None => digits end in
          match ParseInt tok 64 with
          | inl f => inl f
          | inr i =>
              let x := (i + 2 ^ (bitSize - 1)) mod 2 ^ bitSize - 2 ^ (bitSize - 1) in
              if x =? i then inr x else inl IntegerOverflow
          end
      end
  end.

(** [fmt.Scanf("%d", &selection)]: the space before the verb is skipped
    and one [int] is scanned. *)
Definition Scanf_d (input : list rune) : failure + Z :=
  match SkipSpace input with
  | inl f => inl f
  | inr input => scanInt intBits input
  end.

(** The answer [r] of a read is what [Scanf] gives on the input: the
    integer scanned, or an error. *)
Definition reads (input : list rune) (r : error + Z) : Prop :=
  match Scanf_d input with
  | inr n => r = inr n
  | inl _ => exists err, r = inl err
  end.

(** The text is an integer numeral: an optional sign, decimal digits,
    and nothing else. *)
Definition numeral (text : list rune) : bool :=
  match snd (accept sign text) with
  | [] => false
  | digits => forallb (indexRune decimalDigits) digits
  end.

End scan.

(** What a selector on [items] returns for the input [input] that
    standard input holds: the item at the 1-based position that [Scanf]
    reads from it when that is in [1..N], a selection error when the
    position read is outside or nothing is read. *)
Definition accepted {A} (items : list A) (input : list scan.rune) (res : outcome A) : Prop :=
  match scan.Scanf_d input with
  | inr n =>
      (1 <= n <= len_slice items ->
         exists x, nth_error items (Z.to_nat (n - 1)) = Some x /\ res = Ok x)
      /\ (~ 1 <= n <= len_slice items -> exists e, res = Err e /\ SelectionError e)
  | inl _ => exists e, res = Err e /\ SelectionError e
  end.

(** What a selector on [items] makes of standard input, [r] being the
    answer of its read and [res] its result: the result is decided by
    what [Scanf] reads from the input; digits that spell a position in
    [1..N] are accepted whatever follows them; and an input that starts
    with a rune that is neither space nor a sign nor a digit is a
    selection error. *)
Definition selects_by_input {A} (items : list A) (r : error + Z) (res : outcome A) : Prop :=
  (forall input, scan.reads input r -> accepted items input res)
  /\ (forall d ds rest,
        forallb (scan.indexRune scan.decimalDigits) (d :: ds) = true ->
        scan.peek scan.decimalDigits rest = false ->
        scan.reads ((d :: ds) ++ rest)%list r ->
        1 <= scan.decimal (d :: ds) <= len_slice items ->
        len_slice items < 2 ^ 63 ->
        exists x,
          nth_error items (Z.to_nat (scan.decimal (d :: ds) - 1)) = Some x /\ res = Ok x)
  /\ (forall c rest,
        scan.isSpace c = false ->
        scan.indexRune scan.sign c = false ->
        scan.indexRune scan.decimalDigits c = false ->
        scan.reads (c :: rest) r ->
        exists e, res = Err e /\ SelectionError e).

(** ** Sample environments *)

Definition sample_apps : list types.RaygunApplication :=
  [types.mkRaygunApplication "a1" "MyApp-dev"; types.mkRaygunApplication "a2" "MyApp-prod"].

Definition sample_groups : list types.ErrorGroup :=
  [types.mkErrorGroup "g1" "NullReferenceException" "resolved" 4;
   types.mkErrorGroup "g2" "TimeoutException" "active" 12;
   types.mkErrorGroup "g3" "KeyNotFoundException" "active" 1].

Definition sample_detail : types.CrashReportDetail :=
  types.mkCrashReportDetail
    (types.mkErrorInfo "TimeoutException" "System.TimeoutException"
       [types.mkStackFrame "Worker.cs" 42 "Run"])
    (types.mkRequestInfo "https://example.org/jobs" "POST").

(** The library functions of the sample environments: paths are already
    absolute, the three bodies ["apps"], ["groups"] and ["details"]
    decode to the samples above, ["[]"] to the empty list, and anything
    else is rejected. *)
Definition sample_decode {A} (name : string) (v : list A) (body : string) : error + list A :=
  if String.eqb body name then inr v
  else if String.eqb body "[]" then inr []
  else inl "invalid character 'x' looking for beginning of value".

Definition sample_parse (text : string) : error + template.t :=
  if String.eqb text "review" then
    inr [template.Text "Review this diff: "; template.Field "Diff";
         template.Text " and write to "; template.Field "ReviewFilePath"]
  else if String.eqb text "errors" then
    inr [template.Text "Analyze "; template.Field "ErrorMessage"; template.Text ": ";
         template.PrintfS "CrashDetails"]
  else inl "unexpected EOF".

Definition sample_env
    (scanf : trace -> string -> error + Z)
    (stat : trace -> string -> StatResult)
    (run : trace -> ExecMode -> Cmd -> ExecResult)
    (http : trace -> string -> list (string * string) -> error + Response)
    (goos : string) : Env :=
  mkEnv scanf stat run http (fun _ => EmptyString) goos (fun p => inr p) (fun s => s)
    sample_parse
    (sample_decode "apps" sample_apps)
    (sample_decode "groups" sample_groups)
    (sample_decode "details" [sample_detail])
    (fun _ => inr "{crash}").

(** The service answers every request with status 200; the body is
    picked by the end of the URL. *)
Definition http_ok (_ : trace) (url : string) (_ : list (string * string)) : error + Response :=
  if containsb "/errors?count=1" url then inr (mkResponse 200 "details")
  else if containsb "/error-groups" url then inr (mkResponse 200 "groups")
  else inr (mkResponse 200 "apps").

Definition run_ok (_ : trace) (_ : ExecMode) (_ : Cmd) : ExecResult :=
  mkExecResult EmptyString None.

(** Everything works and the user types 2. *)
Definition env_ok : Env :=
  sample_env (fun _ _ => inr 2) (fun _ _ => StatOk) run_ok http_ok "darwin".

Definition vars_ok : analyze.Vars :=
  analyze.mkVars "errors" EmptyString "tok" "/repo" EmptyString.

(** The service answers every request with status 200 and an empty list. *)
Definition env_empty : Env :=
  sample_env (fun _ _ => inr 1) (fun _ _ => StatOk) run_ok
    (fun _ _ _ => inr (mkResponse 200 "[]")) "darwin".

(** The repo path names a regular file: the stat of its [.git] fails with
    ENOTDIR. *)
Definition env_file : Env :=
  sample_env (fun _ _ => inr 1) (fun _ _ => StatErr ENOTDIR) run_ok http_ok "darwin".

Definition review_vars_file : ai_review.Vars :=
  ai_review.mkVars "review" "feature" "main" "/etc/hostname".

Definition vars_file : analyze.Vars :=
  analyze.mkVars "errors" EmptyString "tok" "/etc/hostname" EmptyString.

Definition review_vars_ok : ai_review.Vars :=
  ai_review.mkVars "review" "feature" "main" "/repo".

(** The project is named on the command line. *)
Definition vars_project : analyze.Vars :=
  analyze.mkVars "errors" "MyApp-prod" "tok" "/repo" EmptyString.



(** A crash message of 81 bytes, valid UTF-8: 76 letters, the two bytes
    C3 A9 of an e with acute accent, three letters. *)
Definition accent : string :=
  String (ascii_of_nat 195) (String (ascii_of_nat 169) EmptyString).

Definition letters76 : string := String.concat EmptyString (repeat "a" 76).

Definition split_message : string := letters76 ++ accent ++ "aaa".

Definition split_group : types.ErrorGroup :=
  types.mkErrorGroup "g9" split_message "active" 3.

(** No network: [git fetch] and [git pull] fail, every other command
    succeeds. *)
Definition run_offline (_ : trace) (_ : ExecMode) (c : Cmd) : ExecResult :=
  match cmd_args c with
  | "fetch" :: _ => mkExecResult EmptyString (Some "exit status 128")
  | "pull" :: _ => mkExecResult EmptyString (Some "exit status 1")
  | _ => mkExecResult EmptyString None
  end.

Definition env_offline : Env :=
  sample_env (fun _ _ => inr 1) (fun _ _ => StatOk) run_offline http_ok "darwin".

(** A Linux machine, where there is no [open] command: running it fails;
    everything else works. *)
Definition run_linux (_ : trace) (_ : ExecMode) (c : Cmd) : ExecResult :=
  if String.eqb (cmd_name c) "open"
  then mkExecResult EmptyString
         (Some "exec: open: executable file not found in $PATH")
  else mkExecResult EmptyString None.

Definition env_linux : Env :=
  sample_env (fun _ _ => inr 1) (fun _ _ => StatOk) run_linux http_ok "linux".

(** The branches have no merge base and there is no remote: the
    reference check and every three-dot diff fail, the two-dot diffs
    succeed. *)
Definition run_no_merge_base (_ : trace) (_ : ExecMode) (c : Cmd) : ExecResult :=
  if existsb (containsb "...HEAD") (cmd_args c) || existsb (String.eqb "--verify") (cmd_args c)
  then mkExecResult EmptyString (Some "exit status 128")
  else mkExecResult "+x" None.

Definition env_no_merge_base : Env :=
  sample_env (fun _ _ => inr 1) (fun _ _ => StatOk) run_no_merge_base http_ok "darwin".

(** ** Invariants of a run *)

(** In the environment [env], every event the computation [m] adds
    satisfies [P], from whatever history it starts. *)
Definition always {A} (env : Env) (P : event -> Prop) (m : IO A) : Prop :=
  forall h, Forall P (fst (m env h)).

(** In the environment [env], [a] is a value [m] can return. *)
Definition returns {A} (env : Env) (m : IO A) (a : A) : Prop :=
  exists h, snd (m env h) = Ok a.

(** In the environment [env], [m] reads standard input at most [n]
    times. *)
Definition reads_at_most {A} (env : Env) (n : nat) (m : IO A) : Prop :=
  forall h, (List.length (scans (fst (m env h))) <= n)%nat.

(** The argument lists of the git commands of the review pipeline, for
    the target flag [target]: the lookup of the current branch, the check
    of origin/<target>, and the four diffs against a reference that is
    origin/<target> or <target>.  The flag is used as it is given. *)
Definition review_git_args (target : string) (args : list string) : Prop :=
  args = ["rev-parse"; "--abbrev-ref"; "HEAD"]
  \/ args = ["rev-parse"; "--verify"; "origin/" ++ target]
  \/ exists ref,
       (ref = "origin/" ++ target \/ ref = target)
       /\ (args = ["diff"; "--stat"; ref ++ "...HEAD"] \/ args = ["diff"; "--stat"; ref]
           \/ args = ["diff"; ref ++ "...HEAD"] \/ args = ["diff"; ref]).

(** The events of the review pipeline for the target flag [target] and
    the repository at [repo]: lines printed, stats, and three kinds of
    command: git with one of the argument lists above, run in the
    repository without the terminal; the assistant, run in the
    repository with the terminal attached, with the model, the
    permission switch and one prompt; and [open] on Review.md of the
    repository. *)
Definition review_event (target repo : string) (e : event) : Prop :=
  match e with
  | EPrint _ => True
  | EStat _ _ => True
  | EExec _ c _ =>
      (cmd_name c = "git" /\ cmd_dir c = Some repo /\ cmd_stdio c = false
       /\ review_git_args target (cmd_args c))
      \/ (cmd_name c = "claude" /\ cmd_dir c = Some repo /\ cmd_stdio c = true
          /\ exists prompt,
               cmd_args c = ["--model=Sonnet"; "--dangerously-skip-permissions"; "-p"; prompt])
      \/ (cmd_name c = "open" /\ cmd_dir c = None /\ cmd_stdio c = false
          /\ cmd_args c = [filepath_Join repo "Review.md"])
  | EScanf _ _ => False
  | EHttpGet _ _ _ => False
  end.

(** A request of the errors pipeline goes to the crash service and
    carries the token. *)
Definition bearer_request (token : string) (e : event) : Prop :=
  match e with
  | EHttpGet url hd _ =>
      hd = [("Authorization", "Bearer " ++ token); ("Content-Type", "application/json")]
      /\ String.prefix analyze.raygunAPIBase url = true
  | _ => True
  end.

(** The commands of the errors pipeline for the repository at [repo]:
    [git fetch --all], [git checkout <branch>] and [git pull], only when
    the branch flag is given; the assistant; [open] on the analysis. *)
Definition errors_command (v : analyze.Vars) (repo : string) (e : event) : Prop :=
  match e with
  | EExec _ c _ =>
      (cmd_name c = "git" /\ analyze.branch v <> EmptyString /\ cmd_dir c = Some repo
       /\ cmd_stdio c = false
       /\ (cmd_args c = ["fetch"; "--all"] \/ cmd_args c = ["checkout"; analyze.branch v]
           \/ cmd_args c = ["pull"]))
      \/ (cmd_name c = "claude" /\ cmd_dir c = Some repo /\ cmd_stdio c = true)
      \/ (cmd_name c = "open" /\ cmd_args c = [filepath_Join repo "RaygunError.md"])
  | _ => True
  end.

(** The event is not a read of standard input. *)
Definition no_scan (e : event) : Prop :=
  match e with
  | EScanf _ _ => False
  | _ => True
  end.

(** The line the review pipeline prints for an empty diff. *)
Definition noDifferences : string := "No differences found between branches." ++ nl.

(** The event is not the run of [git rev-parse --abbrev-ref HEAD]. *)
Definition not_current_branch_lookup (e : event) : Prop :=
  match e with
  | EExec _ c _ => cmd_args c <> ["rev-parse"; "--abbrev-ref"; "HEAD"]
  | _ => True
  end.

(** The message of [start] when there is no token. *)
Definition tokenRequired : string :=
  "raygun token required: use --token flag or set RAYGUN_TOKEN environment variable".

(** Every byte of the string is below 128. *)
Fixpoint is_ascii (s : string) : bool :=
  match s with
  | EmptyString => true
  | String c rest => (utf8.byte c <? 128) && is_ascii rest
  end.

(** The service refuses every request. *)
Definition env_unauthorized : Env :=
  sample_env (fun _ _ => inr 1) (fun _ _ => StatOk) run_ok
    (fun _ _ _ => inr (mkResponse 401 "Unauthorized")) "darwin".

(** The assistant exits with an error. *)
Definition run_assistant_fails (_ : trace) (_ : ExecMode) (c : Cmd) : ExecResult :=
  if String.eqb (cmd_name c) "claude"
  then mkExecResult EmptyString (Some "exit status 1")
  else mkExecResult EmptyString None.

Definition env_assistant_fails : Env :=
  sample_env (fun _ _ => inr 2) (fun _ _ => StatOk) run_assistant_fails http_ok "darwin".

(** The URL of the detail request for a group of an application. *)
Definition detailURL (raygunApp : types.RaygunApplication) (g : types.ErrorGroup) : string :=
  analyze.raygunAPIBase ++ "/applications/" ++ types.app_Identifier raygunApp
    ++ "/error-groups/" ++ types.eg_Identifier g ++ "/errors?count=1".

(** The event is not a stat. *)
Definition no_stat (e : event) : Prop :=
  match e with
  | EStat _ _ => False
  | _ => True
  end.

(** What holds of a launcher's run [(tr, res)] when the assistant
    failed: its error is returned and nothing is published. *)
Definition stops_on_assistant_failure (tr : trace) (res : outcome unit) : Prop :=
  forall c r err,
    In (EExec Run c r) tr -> cmd_name c = "claude" -> exec_err r = Some err ->
    res = Err ("failed to run claude: " ++ err)
    /\ commands tr = [c]
    /\ Forall no_stat tr.

(** What holds of a launcher's run [(tr, res)] about the output file
    [path]: once the assistant succeeded the result is success; [open]
    is run on [path] and only after a stat of [path] that succeeded. *)
Definition publishes_best_effort (path : string) (tr : trace) (res : outcome unit) : Prop :=
  (forall c r, In (EExec Run c r) tr -> cmd_name c = "claude" -> exec_err r = None ->
               res = Ok tt)
  /\ (forall mode c r, In (EExec mode c r) tr -> cmd_name c = "open" ->
                       cmd_args c = [path] /\ In (EStat path StatOk) tr)
  /\ (forall errno, In (EStat path (StatErr errno)) tr ->
                    Forall (fun c => cmd_name c <> "open") (commands tr)).

(** No branch flag: the review is of the current branch. *)
Definition review_vars_current : ai_review.Vars :=
  ai_review.mkVars "review" EmptyString "main" "/repo".

(** No token flag. *)
Definition vars_no_token : analyze.Vars :=
  analyze.mkVars "errors" EmptyString EmptyString "/repo" EmptyString.

(** * Proofs *)

(** ** Strings *)

Lemma append_assoc (a b c : string) : (a ++ b) ++ c = a ++ b ++ c.
Proof. induction a as [|x a IH]; simpl; [reflexivity | now rewrite IH]. Qed.

Lemma append_nil_r (a : string) : a ++ EmptyString = a.
Proof. induction a as [|x a IH]; simpl; [reflexivity | now rewrite IH]. Qed.

Lemma length_append (a b : string) :
  String.length (a ++ b) = (String.length a + String.length b)%nat.
Proof. induction a as [|x a IH]; simpl; [reflexivity | now rewrite IH]. Qed.

Lemma length_substring_le (s : string) (n m : nat) :
  (String.length (substring n m s) <= m)%nat.
Proof.
  revert n m. induction s as [|c s IH]; intros n m.
  - destruct n, m; simpl; lia.
  - destruct n as [|n].
    + destruct m as [|m]; simpl; [lia|]. specialize (IH 0%nat m). lia.
    + simpl. apply IH.
Qed.

Lemma contains_refl (s : string) : contains s s.
Proof. exists EmptyString, EmptyString. simpl. now rewrite append_nil_r. Qed.

Lemma contains_app_l (sub p s : string) : contains sub s -> contains sub (p ++ s).
Proof.
  intros (pre & post & ->). exists (p ++ pre), post. now rewrite append_assoc.
Qed.

Lemma contains_app_r (sub s p : string) : contains sub s -> contains sub (s ++ p).
Proof.
  intros (pre & post & ->). exists pre, (post ++ p). now rewrite !append_assoc.
Qed.

Lemma prefix_append (a b : string) : String.prefix a (a ++ b) = true.
Proof.
  induction a as [|x a IH]; simpl.
  - now destruct b.
  - destruct (ascii_dec x x) as [_|n]; [exact IH | now elim n].
Qed.

(** [containsb] finds every occurrence, so [false] refutes [contains]. *)
Lemma containsb_complete (sub s : string) : contains sub s -> containsb sub s = true.
Proof.
  intros (pre & post & ->). induction pre as [|x pre IH].
  - change (EmptyString ++ sub ++ post) with (sub ++ post).
    pose proof (prefix_append sub post) as P.
    destruct (sub ++ post); cbn [containsb]; now rewrite P.
  - simpl. rewrite IH. apply orb_true_r.
Qed.

(** ** Running a computation *)

Lemma bind_ok {A B} (m : IO A) (f : A -> IO B) env h t1 a :
  m env h = (t1, Ok a) ->
  bind m f env h = (t1 +++ fst (f a env (h +++ t1)), snd (f a env (h +++ t1))).
Proof. unfold bind. intros ->. now destruct (f a env (h +++ t1)). Qed.

Lemma bind_err {A B} (m : IO A) (f : A -> IO B) env h t1 e :
  m env h = (t1, Err e) -> bind m f env h = (t1, Err e).
Proof. unfold bind. now intros ->. Qed.

Lemma bind_panic {A B} (m : IO A) (f : A -> IO B) env h t1 msg :
  m env h = (t1, Panic msg) -> bind m f env h = (t1, Panic msg).
Proof. unfold bind. now intros ->. Qed.

Lemma wrap_ok {A} ctx (m : IO A) env h t1 a :
  m env h = (t1, Ok a) -> wrap ctx m env h = (t1, Ok a).
Proof. unfold wrap. now intros ->. Qed.

Lemma wrap_err {A} ctx (m : IO A) env h t1 e :
  m env h = (t1, Err e) -> wrap ctx m env h = (t1, Err (ctx ++ e)).
Proof. unfold wrap. now intros ->. Qed.

Lemma pair_eta {A B} (p : A * B) : p = (fst p, snd p).
Proof. now destruct p. Qed.

(** ** Loops that only print *)

Lemma for_range_print {A} (line : Z -> A -> string) (l : list A) :
  forall i env h,
    for_range i l (fun i x => Print (line i x)) env h
    = (map (fun ix => EPrint (line (fst ix) (snd ix))) (numbered i l), Ok tt).
Proof.
  induction l as [|x l IH]; intros i env h; simpl.
  - reflexivity.
  - unfold bind at 1. simpl. rewrite IH. reflexivity.
Qed.

Lemma scans_app (t1 t2 : trace) : scans (t1 +++ t2) = (scans t1 ++ scans t2)%list.
Proof. unfold scans. apply flat_map_app. Qed.

Lemma scans_prints {A} (f : A -> string) (l : list A) :
  scans (map (fun x => EPrint (f x)) l) = [].
Proof. induction l as [|x l IH]; simpl; [reflexivity | exact IH]. Qed.

Lemma Filter_from_filter {A} (p : A -> bool) (l : list A) :
  forall i, lo.Filter_from i l (fun x _ => p x) = filter p l.
Proof.
  induction l as [|x l IH]; intros i; simpl; [reflexivity|].
  rewrite IH. reflexivity.
Qed.

Lemma len_slice_zero {A} (l : list A) : (len_slice l =? 0) = true <-> l = [].
Proof.
  unfold len_slice. destruct l; simpl; split; intros H; try reflexivity; try discriminate.
Qed.

Lemma index_in_range {A} (l : list A) (n : Z) env h :
  1 <= n <= len_slice l ->
  exists x, nth_error l (Z.to_nat (n - 1)) = Some x /\ index l (n - 1) env h = ([], Ok x).
Proof.
  unfold len_slice, index. intros Hn.
  destruct (Z.ltb_spec (n - 1) 0) as [Hlt|_]; [lia|].
  destruct (nth_error l (Z.to_nat (n - 1))) as [x|] eqn:E.
  - exists x. split; reflexivity.
  - apply nth_error_None in E. lia.
Qed.

(** ** The two selectors *)

Lemma out_of_range_cases (n N : Z) :
  ((n <? 1) || (N <? n) = false <-> 1 <= n <= N).
Proof.
  destruct (Z.ltb_spec n 1), (Z.ltb_spec N n); simpl; split; intros; try lia; try discriminate;
    reflexivity.
Qed.

Lemma after_scan_selected {A} (items : list A) (r : error + Z) env h :
  exists res, after_scan items r env h = ([], res) /\ selected items r res.
Proof.
  destruct r as [err|n]; simpl.
  - eexists. split; [reflexivity|]. exists ("invalid selection: " ++ err). split; [reflexivity|].
    right. now exists err.
  - destruct ((n <? 1) || (len_slice items <? n)) eqn:E.
    + eexists. split; [reflexivity|]. split.
      * intros Hn. apply out_of_range_cases in Hn. congruence.
      * intros _. exists "selection out of range". split; [reflexivity | now left].
    + apply out_of_range_cases in E.
      destruct (index_in_range items n env h E) as (x & Hx & Hi). rewrite Hi.
      eexists. split; [reflexivity|]. split.
      * intros _. now exists x.
      * intros Hn. now elim Hn.
Qed.

Ltac io_steps :=
  repeat (erewrite bind_ok by (reflexivity || apply for_range_print)); cbn [fst snd].

Ltac after_scan_cases items :=
  match goal with
  | |- context [EScanf "%d" ?r] =>
      let r0 := fresh "r" in
      remember r as r0 eqn:Hr0; clear Hr0;
      change (match r0 with
              | inl err => fail ("invalid selection: " ++ err)
              | inr selection =>
                  if (selection <? 1) || (len_slice items <? selection)
                  then fail "selection out of range"
                  else index items (selection - 1)
              end) with (after_scan items r0);
      match goal with
      | |- context [after_scan items r0 ?env ?H] =>
          let res := fresh "res" in
          let Hrun := fresh "Hrun" in
          let Hsel := fresh "Hsel" in
          destruct (after_scan_selected items r0 env H) as (res & Hrun & Hsel);
          rewrite Hrun; cbn [fst snd]; exists r0, res
      end
  end.

Lemma chooseErrorGroup_run (gs : list types.ErrorGroup) env h :
  exists r res,
    analyze.chooseErrorGroup gs env h = (errorGroupMenu gs +++ [EScanf "%d" r], res)
    /\ selected gs r res.
Proof.
  unfold analyze.chooseErrorGroup. io_steps. after_scan_cases gs.
  split; [|assumption].
  unfold errorGroupMenu. rewrite app_nil_r. simpl. now rewrite <- !app_assoc.
Qed.

(** ** The three calls of the crash service *)

(** Each call makes one request and nothing else; its result is read off
    the answer. *)
Lemma fetchApplications_run (token : string) (count : Z) env h :
  let url := analyze.raygunAPIBase ++ "/applications?count=" ++ fmt_d count in
  let r := env_http env h url (analyze.headers token) in
  analyze.fetchApplications token count env h
  = ([EHttpGet url (analyze.headers token) r],
     match r with
     | inl err => Err ("failed to fetch applications: " ++ err)
     | inr response =>
         if StatusCode response =? 200 then
           match json_Unmarshal_applications env (Body response) with
           | inl err => Err ("failed to decode applications: " ++ err)
           | inr applications => Ok applications
           end
         else Err ("raygun API returned status " ++ fmt_d (StatusCode response) ++ ": "
                     ++ Body response)
     end).
Proof.
  intros url r. unfold analyze.fetchApplications. fold url.
  erewrite bind_ok by reflexivity. fold r. cbn [fst snd].
  destruct r as [err|response]; [reflexivity|].
  destruct (StatusCode response =? 200); cbn [negb]; [|reflexivity].
  erewrite bind_ok by reflexivity. cbn [fst snd].
  destruct (json_Unmarshal_applications env (Body response)); reflexivity.
Qed.

Lemma listErrorGroups_run (token : string) (app : types.RaygunApplication) env h :
  let url := analyze.raygunAPIBase ++ "/applications/" ++ types.app_Identifier app
               ++ "/error-groups" in
  let r := env_http env h url (analyze.headers token) in
  analyze.listErrorGroups token app env h
  = ([EHttpGet url (analyze.headers token) r],
     match r with
     | inl err => Err ("failed to fetch error groups: " ++ err)
     | inr response =>
         if StatusCode response =? 200 then
           match json_Unmarshal_errorGroups env (Body response) with
           | inl err => Err ("failed to decode error groups: " ++ err)
           | inr errorGroups => Ok errorGroups
           end
         else Err ("raygun API returned status " ++ fmt_d (StatusCode response) ++ ": "
                     ++ Body response)
     end).
Proof.
  intros url r. unfold analyze.listErrorGroups. fold url.
  erewrite bind_ok by reflexivity. fold r. cbn [fst snd].
  destruct r as [err|response]; [reflexivity|].
  destruct (StatusCode response =? 200); cbn [negb]; [|reflexivity].
  erewrite bind_ok by reflexivity. cbn [fst snd].
  destruct (json_Unmarshal_errorGroups env (Body response)); reflexivity.
Qed.

Lemma getErrorReportDetail_run (token appId groupId : string) env h :
  let url := analyze.raygunAPIBase ++ "/applications/" ++ appId ++ "/error-groups/"
               ++ groupId ++ "/errors?count=1" in
  let r := env_http env h url (analyze.headers token) in
  analyze.getErrorReportDetail token appId groupId env h
  = ([EHttpGet url (analyze.headers token) r],
     match r with
     | inl err => Err ("failed to fetch error detail: " ++ err)
     | inr response =>
         if StatusCode response =? 200 then
           match json_Unmarshal_details env (Body response) with
           | inl err => Err ("failed to decode error detail: " ++ err)
           | inr [] => Err "no error details found"
           | inr (d :: _) => Ok d
           end
         else Err ("raygun API returned status " ++ fmt_d (StatusCode response) ++ ": "
                     ++ Body response)
     end).
Proof.
  intros url r. unfold analyze.getErrorReportDetail. fold url.
  erewrite bind_ok by reflexivity. fold r. cbn [fst snd].
  destruct r as [err|response]; [reflexivity|].
  destruct (StatusCode response =? 200); cbn [negb]; [|reflexivity].
  erewrite bind_ok by reflexivity. cbn [fst snd].
  destruct (json_Unmarshal_details env (Body response)) as [err|[|d rest]]; reflexivity.
Qed.

Lemma chooseRaygunApplication_prompt (v : analyze.Vars) (token : string) env h t1 apps :
  analyze.raygunProject v = EmptyString ->
  analyze.fetchApplications token 20 env h = (t1, Ok apps) ->
  apps <> [] ->
  exists r res,
    analyze.chooseRaygunApplication v token env h
    = (t1 +++ applicationMenu apps +++ [EScanf "%d" r], res)
    /\ selected apps r res.
Proof.
  intros Hflag Hfetch Hne. unfold analyze.chooseRaygunApplication.
  erewrite bind_ok by (apply wrap_ok; exact Hfetch).
  destruct (len_slice apps =? 0) eqn:E; [apply len_slice_zero in E; contradiction|].
  rewrite Hflag. cbn [String.eqb negb fst snd]. io_steps. after_scan_cases apps.
  split; [|assumption].
  unfold applicationMenu. rewrite app_nil_r. simpl. now rewrite <- !app_assoc.
Qed.

(** ** The scanner *)

Lemma digit_range (d : scan.rune) :
  scan.indexRune scan.decimalDigits d = true -> 48 <= d <= 57.
Proof.
  unfold scan.indexRune, scan.decimalDigits. cbn.
  rewrite !orb_true_iff, !Z.eqb_eq. lia.
Qed.

Ltac compare_cases :=
  repeat match goal with
         | |- context [?a <? ?b] => destruct (Z.ltb_spec a b); try lia
         | |- context [?a <=? ?b] => destruct (Z.leb_spec a b); try lia
         | |- context [?a =? ?b] => destruct (Z.eqb_spec a b); try lia
         end;
  cbn [andb orb negb].

Lemma SkipSpace_digit (d : scan.rune) (rest : list scan.rune) :
  48 <= d <= 57 -> scan.SkipSpace (d :: rest) = inr (d :: rest).
Proof.
  intros Hd. cbn [scan.SkipSpace]. unfold scan.isSpace, scan.space. cbn [scan.in_ranges].
  compare_cases; reflexivity.
Qed.

Lemma accept_all_run ok (ds rest : list scan.rune) :
  forallb (scan.indexRune ok) ds = true ->
  scan.peek ok rest = false ->
  scan.accept_all ok (ds ++ rest)%list = (ds, rest).
Proof.
  intros Hds Hrest. induction ds as [|d ds IH]; cbn [List.app scan.accept_all].
  - destruct rest as [|r rest]; [reflexivity|]. cbn [scan.peek] in Hrest.
    cbn [scan.accept_all]. now rewrite Hrest.
  - cbn [forallb] in Hds. apply andb_prop in Hds as [Hd Hds]. rewrite Hd, (IH Hds). reflexivity.
Qed.

Lemma fold_digits_nonneg (l : list scan.rune) (acc : Z) :
  forallb (scan.indexRune scan.decimalDigits) l = true ->
  0 <= acc ->
  0 <= fold_left (fun n d => 10 * n + (d - 48)) l acc.
Proof.
  revert acc. induction l as [|x l IH]; intros acc Hl Hacc; [exact Hacc|].
  cbn [forallb] in Hl. apply andb_prop in Hl as [Hx Hl]. apply digit_range in Hx.
  cbn [fold_left]. apply IH; [exact Hl | lia].
Qed.

(** An input that starts with digits is read as the number they spell,
    whatever follows them. *)
Lemma Scanf_d_leading_digits (d : scan.rune) (ds rest : list scan.rune) :
  forallb (scan.indexRune scan.decimalDigits) (d :: ds) = true ->
  scan.peek scan.decimalDigits rest = false ->
  scan.decimal (d :: ds) < 2 ^ 63 ->
  scan.Scanf_d ((d :: ds) ++ rest)%list = inr (scan.decimal (d :: ds)).
Proof.
  intros Hds Hrest Hrange.
  pose proof Hds as Hd. cbn [forallb] in Hd. apply andb_prop in Hd as [Hd Hds'].
  pose proof (digit_range d Hd) as Hd'.
  assert (Hpos : 0 <= scan.decimal (d :: ds)).
  { apply fold_digits_nonneg; [exact Hds | lia]. }
  unfold scan.Scanf_d, scan.scanInt. cbn [List.app].
  rewrite !SkipSpace_digit by exact Hd'.
  assert (Hsign : scan.accept scan.sign (d :: (ds ++ rest)%list) = (None, d :: (ds ++ rest)%list)).
  { cbn. compare_cases; reflexivity. }
  rewrite Hsign. unfold scan.scanNumber. cbn [scan.accept]. rewrite Hd.
  rewrite (accept_all_run _ ds rest Hds' Hrest).
  unfold scan.ParseInt, scan.ParseUint.
  replace ((d =? 43) || (d =? 45)) with false by (compare_cases; reflexivity).
  replace (d =? 45) with false by (compare_cases; reflexivity).
  rewrite Hds. cbn [negb andb].
  set (n := scan.decimal (d :: ds)) in *.
  replace (2 ^ (64 - 1)) with (2 ^ 63) by reflexivity.
  destruct (Z.leb_spec (2 ^ 63) n); [lia|].
  unfold scan.intBits. replace (2 ^ (64 - 1)) with (2 ^ 63) by reflexivity.
  rewrite Z.mod_small by lia.
  replace (n + 2 ^ 63 - 2 ^ 63) with n by lia. now rewrite Z.eqb_refl.
Qed.

(** An input whose first rune is neither space nor a sign nor a digit is
    not read. *)
Lemma Scanf_d_not_a_number (r : scan.rune) (rest : list scan.rune) :
  scan.isSpace r = false ->
  scan.indexRune scan.sign r = false ->
  scan.indexRune scan.decimalDigits r = false ->
  scan.Scanf_d (r :: rest) = inl scan.ExpectedInteger.
Proof.
  intros Hspace Hsign Hdigit.
  assert (Hskip : scan.SkipSpace (r :: rest) = inr (r :: rest)).
  { cbn [scan.SkipSpace]. rewrite Hspace.
    assert (r <> 13 /\ r <> 10) as [H13 H10].
    { split; intros ->; discriminate Hspace. }
    destruct (Z.eqb_spec r 13); [contradiction|]. destruct (Z.eqb_spec r 10); [contradiction|].
    reflexivity. }
  unfold scan.Scanf_d, scan.scanInt. rewrite !Hskip.
  cbn [scan.accept]. rewrite Hsign. unfold scan.scanNumber. cbn [scan.accept].
  rewrite Hdigit. reflexivity.
Qed.

Lemma selected_by_input {A} (items : list A) (r : error + Z) (res : outcome A) :
  selected items r res -> selects_by_input items r res.
Proof.
  intros Hsel.
  assert (Hin : forall input, scan.reads input r -> accepted items input res).
  { intros input Hr. unfold scan.reads in Hr. unfold accepted.
    destruct (scan.Scanf_d input) as [f|n].
    - destruct Hr as (err & ->). exact Hsel.
    - subst r. exact Hsel. }
  split; [exact Hin|]. split.
  - intros d ds rest Hds Hrest Hr Hn Hlen.
    specialize (Hin _ Hr). unfold accepted in Hin.
    rewrite Scanf_d_leading_digits in Hin by (assumption || lia).
    exact (proj1 Hin Hn).
  - intros c rest Hspace Hsign Hdigit Hr.
    specialize (Hin _ Hr). unfold accepted in Hin.
    rewrite Scanf_d_not_a_number in Hin by assumption. exact Hin.
Qed.

(** C4 as stated fails.  The user types 2abc, which is not an integer:
    [Scanf] reads the 2 and leaves the rest unread, as it does for 2.9
    and for 2 followed by a blank and 7, and the selector accepts the
    read and returns the second item. *)
Lemma selector_accepts_trailing_text :
  scan.numeral (scan.runes "2abc") = false
  /\ scan.reads (scan.runes "2abc" ++ [10])%list (inr 2)
  /\ scan.reads (scan.runes "2.9" ++ [10])%list (inr 2)
  /\ scan.reads (scan.runes "2 7" ++ [10])%list (inr 2)
  /\ scans (fst (analyze.chooseErrorGroup sample_groups env_ok [])) = [inr 2]
  /\ snd (analyze.chooseErrorGroup sample_groups env_ok [])
     = Ok (types.mkErrorGroup "g2" "TimeoutException" "active" 12)
  /\ ~ (exists e, snd (analyze.chooseErrorGroup sample_groups env_ok []) = Err e
                  /\ SelectionError e).
Proof.
  repeat (split; [vm_compute; reflexivity|]).
  intros (e & He & _). vm_compute in He. discriminate.
Qed.

(** C4, as the code has it.  A selector on a list of length N reads
    standard input once, with [Scanf] and the verb [%d], and does not
    retry.  It accepts the answer of that read exactly when it is an
    integer in [1, N], and then returns the item at that 1-based
    position; any other integer and any failed read yields a selection
    error.  In terms of the input: the integer is the one [Scanf] reads
    at the start of the input, so digits that spell a position in [1, N]
    are accepted whatever follows them, and an input that does not start
    with a number is a selection error.  This holds for the crash-group
    selector and, when no project flag is given and the service returned
    applications, for the project selector. *)
Theorem selector_accepts_leading_integer :
  (forall (gs : list types.ErrorGroup) env h,
      exists r,
        scans (fst (analyze.chooseErrorGroup gs env h)) = [r]
        /\ selected gs r (snd (analyze.chooseErrorGroup gs env h))
        /\ selects_by_input gs r (snd (analyze.chooseErrorGroup gs env h)))
  /\ (forall (v : analyze.Vars) (token : string) env h t1 apps,
         analyze.raygunProject v = EmptyString ->
         analyze.fetchApplications token 20 env h = (t1, Ok apps) ->
         apps <> [] ->
         exists r,
           scans (fst (analyze.chooseRaygunApplication v token env h)) = [r]
           /\ selected apps r (snd (analyze.chooseRaygunApplication v token env h))
           /\ selects_by_input apps r (snd (analyze.chooseRaygunApplication v token env h))).
Proof.
  split.
  - intros gs env h. destruct (chooseErrorGroup_run gs env h) as (r & res & -> & Hsel).
    exists r. split; [|split; [exact Hsel | exact (selected_by_input _ _ _ Hsel)]]. cbn [fst].
    rewrite scans_app. unfold errorGroupMenu. cbn [scans flat_map app].
    fold (scans (map (fun ig => EPrint (analyze.errorGroupLine (fst ig) (snd ig)))
                   (numbered 0 gs) +++ [EPrint (nl ++ "Select error group number: ")])).
    rewrite scans_app, scans_prints. reflexivity.
  - intros v token env h t1 apps Hflag Hfetch Hne.
    destruct (chooseRaygunApplication_prompt v token env h t1 apps Hflag Hfetch Hne)
      as (r & res & -> & Hsel).
    exists r. split; [|split; [exact Hsel | exact (selected_by_input _ _ _ Hsel)]]. cbn [fst].
    pose proof (fetchApplications_run token 20 env h) as Hrun. cbv zeta in Hrun.
    rewrite Hfetch in Hrun. injection Hrun as -> _.
    rewrite !scans_app. unfold applicationMenu. cbn [scans flat_map app].
    fold (scans (map (fun ia => EPrint ("  " ++ fmt_d (fst ia + 1) ++ ". "
                                          ++ types.app_Name (snd ia) ++ nl))
                   (numbered 0 apps) +++ [EPrint (nl ++ "Select project number: ")])).
    rewrite scans_app, scans_prints. reflexivity.
Qed.

Lemma selector_accepts_leading_integer_witness :
  exists x,
    nth_error sample_apps (Z.to_nat (scan.decimal (scan.runes "2") - 1)) = Some x
    /\ snd (analyze.chooseRaygunApplication vars_ok "tok" env_ok []) = Ok x.
Proof.
  destruct (proj2 selector_accepts_leading_integer vars_ok "tok" env_ok []
              [EHttpGet (analyze.raygunAPIBase ++ "/applications?count=" ++ fmt_d 20)
                 (analyze.headers "tok") (inr (mkResponse 200 "apps"))]
              sample_apps eq_refl eq_refl ltac:(discriminate))
    as (r & Hr & _ & _ & Hdigits & _).
  vm_compute in Hr. injection Hr as <-.
  apply (Hdigits 50 [] (scan.runes "abc" ++ [10])%list).
  - reflexivity.
  - reflexivity.
  - reflexivity.
  - vm_compute. split; discriminate.
  - reflexivity.
Defined.

(** ** The active-group filter *)

Lemma Filter_isActive (gs : list types.ErrorGroup) :
  lo.Filter gs analyze.isActive
  = filter (fun g => String.eqb (types.eg_Status g) "active") gs.
Proof. unfold lo.Filter, analyze.isActive. apply Filter_from_filter. Qed.

Lemma start_analyze_run (v : analyze.Vars) (token abs : string) raygunApp gs env h :
  let active := filter (fun g => String.eqb (types.eg_Status g) "active") gs in
  (active = [] ->
     exists line,
       analyze.start_analyze v token abs raygunApp gs env h = ([EPrint line], Ok tt)
       /\ In line [noCrashReports; noActiveCrashReports])
  /\ (active <> [] ->
        exists r rest res,
          analyze.start_analyze v token abs raygunApp gs env h
          = (errorGroupMenu active +++ [EScanf "%d" r] +++ rest, res)
          /\ forall n, r = inr n -> 1 <= n <= len_slice active ->
               exists g rest',
                 nth_error active (Z.to_nat (n - 1)) = Some g
                 /\ rest = EPrint (nl ++ "Analyzing crash: " ++ types.eg_Message g ++ nl) :: rest').
Proof.
  intros active. unfold analyze.start_analyze. rewrite Filter_isActive. fold active.
  split.
  - intros Hnone. rewrite Hnone.
    destruct (len_slice gs =? 0); eexists; (split; [reflexivity|]); simpl; auto.
  - intros Hsome.
    assert (Hgs : (len_slice gs =? 0) = false).
    { destruct (len_slice gs =? 0) eqn:E; [|reflexivity].
      apply len_slice_zero in E. subst gs. now elim Hsome. }
    assert (Hact : (len_slice active =? 0) = false).
    { destruct (len_slice active =? 0) eqn:E; [|reflexivity].
      apply len_slice_zero in E. now elim Hsome. }
    rewrite Hgs, Hact.
    destruct (chooseErrorGroup_run active env h) as (r & res & Hrun & Hsel).
    exists r. destruct r as [err|n].
    + destruct Hsel as (e & -> & _).
      erewrite bind_err by (apply wrap_err; exact Hrun).
      exists [], (Err ("error selecting crash: " ++ e)).
      split; [now rewrite !app_nil_r | discriminate].
    + destruct Hsel as [Hin Hout].
      assert (Hdec : 1 <= n <= len_slice active \/ ~ 1 <= n <= len_slice active) by lia.
      destruct Hdec as [Hn|Hn].
      * destruct (Hin Hn) as (g & Hg & ->).
        erewrite bind_ok by (apply wrap_ok; exact Hrun).
        erewrite bind_ok by reflexivity. cbn [fst snd].
        eexists _, _. split.
        -- rewrite <- !app_assoc. cbn [app]. reflexivity.
        -- intros n' Hn' _. injection Hn' as <-. eexists g, _. split; [exact Hg | reflexivity].
      * destruct (Hout Hn) as (e & -> & _).
        erewrite bind_err by (apply wrap_err; exact Hrun).
        exists [], (Err ("error selecting crash: " ++ e)).
        split; [now rewrite !app_nil_r | intros n' Hn' Hr; injection Hn' as <-; lia].
Qed.

(** C1. When the errors pipeline has fetched the list [gs] of error
    groups, the groups offered for selection are exactly those of [gs]
    whose status is "active", in order: they are the numbered list shown
    and an accepted choice picks from them.  When there is none, the run
    prints one line and ends with success, with no prompt and no read. *)
Theorem start_offers_exactly_active (v : analyze.Vars) env h t1 t2 t3 token abs raygunApp gs :
  analyze.start_token v env h = (t1, Ok token) ->
  analyze.start_resolveRepo v env (h +++ t1) = (t2, Ok abs) ->
  analyze.start_fetch v token env (h +++ t1 +++ t2) = (t3, Ok (raygunApp, gs)) ->
  let active := filter (fun g => String.eqb (types.eg_Status g) "active") gs in
  (active = [] ->
     exists line,
       analyze.start v env h = (t1 +++ t2 +++ t3 +++ [EPrint line], Ok tt)
       /\ In line [noCrashReports; noActiveCrashReports])
  /\ (active <> [] ->
        exists r rest res,
          analyze.start v env h
          = (t1 +++ t2 +++ t3 +++ errorGroupMenu active +++ [EScanf "%d" r] +++ rest, res)
          /\ forall n, r = inr n -> 1 <= n <= len_slice active ->
               exists g rest',
                 nth_error active (Z.to_nat (n - 1)) = Some g
                 /\ rest = EPrint (nl ++ "Analyzing crash: " ++ types.eg_Message g ++ nl) :: rest').
Proof.
  intros Htok Hrepo Hfetch active. unfold analyze.start.
  erewrite bind_ok by exact Htok. erewrite bind_ok by exact Hrepo.
  rewrite app_assoc in Hfetch.
  erewrite bind_ok by exact Hfetch. cbn [fst snd].
  destruct (start_analyze_run v token abs raygunApp gs env (((h +++ t1) +++ t2) +++ t3))
    as [Hnone Hsome].
  fold active in Hnone, Hsome. split.
  - intros Ha. destruct (Hnone Ha) as (line & -> & Hline). now exists line.
  - intros Ha. destruct (Hsome Ha) as (r & rest & res & -> & Hpick).
    exists r, rest, res. split; [reflexivity | exact Hpick].
Qed.

Lemma start_offers_exactly_active_witness :
  let t1 := fst (analyze.start_token vars_ok env_ok []) in
  let t2 := fst (analyze.start_resolveRepo vars_ok env_ok t1) in
  let t3 := fst (analyze.start_fetch vars_ok "tok" env_ok (t1 +++ t2)) in
  let active := filter (fun g => String.eqb (types.eg_Status g) "active") sample_groups in
  (active = [] ->
     exists line,
       analyze.start vars_ok env_ok [] = (t1 +++ t2 +++ t3 +++ [EPrint line], Ok tt)
       /\ In line [noCrashReports; noActiveCrashReports])
  /\ (active <> [] ->
        exists r rest res,
          analyze.start vars_ok env_ok []
          = (t1 +++ t2 +++ t3 +++ errorGroupMenu active +++ [EScanf "%d" r] +++ rest, res)
          /\ forall n, r = inr n -> 1 <= n <= len_slice active ->
               exists g rest',
                 nth_error active (Z.to_nat (n - 1)) = Some g
                 /\ rest = EPrint (nl ++ "Analyzing crash: " ++ types.eg_Message g ++ nl) :: rest').
Proof.
  apply (start_offers_exactly_active vars_ok env_ok [] _ _ _ "tok" "/repo"
           (types.mkRaygunApplication "a2" "MyApp-prod") sample_groups).
  - reflexivity.
  - reflexivity.
  - vm_compute. reflexivity.
Defined.

(** ** The diff collector *)


Section Fallback.

Variables repoDir ref : string.






End Fallback.








(** The run of the witness: the check fails, so the bare name is the
    reference, and each three-dot diff fails and is followed by its
    two-dot form. *)
Example getDiff_falls_back :
  map cmd_args (commands (fst (ai_review.getDiff "/repo" "feature" "main" env_no_merge_base [])))
  = [["rev-parse"; "--verify"; "origin/main"];
     ["diff"; "--stat"; "main...HEAD"]; ["diff"; "--stat"; "main"];
     ["diff"; "main...HEAD"]; ["diff"; "main"]]
  /\ snd (ai_review.getDiff "/repo" "feature" "main" env_no_merge_base [])
     = Ok ("=== DIFF STATS ===" ++ nl ++ "+x" ++ nl ++ nl ++ "=== FULL DIFF ===" ++ nl ++ "+x").
Proof. split; vm_compute; reflexivity. Qed.

(** ** The error contract of the crash-service calls *)

Lemma status_message_contains (code : Z) (body : string) :
  contains (fmt_d code) ("raygun API returned status " ++ fmt_d code ++ ": " ++ body)
  /\ contains body ("raygun API returned status " ++ fmt_d code ++ ": " ++ body).
Proof.
  split.
  - now exists "raygun API returned status ", (": " ++ body).
  - do 3 apply contains_app_l. apply contains_refl.
Qed.

(** C5, as the code has it.  Each of the three calls makes one request.
    A response whose status is not 200 is a failure whose message holds
    the status code and the body; a 200 response whose body does not
    decode is a failure whose message holds the decode error.  A 200
    response whose body decodes succeeds with the decoded list for the
    applications and the error groups; the detail call succeeds with the
    first element of the decoded list, and fails with "no error details
    found" when that list is empty. *)
Theorem crash_service_error_contract (token : string) env h :
  (forall count,
      error_contract (analyze.fetchApplications token count)
        (analyze.raygunAPIBase ++ "/applications?count=" ++ fmt_d count) token
        (json_Unmarshal_applications env) Ok env h)
  /\ (forall raygunApp,
         error_contract (analyze.listErrorGroups token raygunApp)
           (analyze.raygunAPIBase ++ "/applications/" ++ types.app_Identifier raygunApp
              ++ "/error-groups") token
           (json_Unmarshal_errorGroups env) Ok env h)
  /\ (forall appId groupId,
         error_contract (analyze.getErrorReportDetail token appId groupId)
           (analyze.raygunAPIBase ++ "/applications/" ++ appId ++ "/error-groups/"
              ++ groupId ++ "/errors?count=1") token
           (json_Unmarshal_details env)
           (fun details => match details with
                           | [] => Err "no error details found"
                           | d :: _ => Ok d
                           end) env h).
Proof.
  split; [|split].
  - intros count response Hresp.
    pose proof (fetchApplications_run token count env h) as Hrun. cbv zeta in Hrun.
    rewrite Hresp in Hrun. rewrite Hrun. cbn [fst snd].
    split; [reflexivity|]. split.
    + intros Hne. apply Z.eqb_neq in Hne. rewrite Hne. eexists. split; [reflexivity|].
      apply status_message_contains.
    + intros Heq. apply Z.eqb_eq in Heq. rewrite Heq.
      destruct (json_Unmarshal_applications env (Body response)) as [derr|a]; [|reflexivity].
      eexists. split; [reflexivity|]. apply contains_app_l, contains_refl.
  - intros raygunApp response Hresp.
    pose proof (listErrorGroups_run token raygunApp env h) as Hrun. cbv zeta in Hrun.
    rewrite Hresp in Hrun. rewrite Hrun. cbn [fst snd].
    split; [reflexivity|]. split.
    + intros Hne. apply Z.eqb_neq in Hne. rewrite Hne. eexists. split; [reflexivity|].
      apply status_message_contains.
    + intros Heq. apply Z.eqb_eq in Heq. rewrite Heq.
      destruct (json_Unmarshal_errorGroups env (Body response)) as [derr|a]; [|reflexivity].
      eexists. split; [reflexivity|]. apply contains_app_l, contains_refl.
  - intros appId groupId response Hresp.
    pose proof (getErrorReportDetail_run token appId groupId env h) as Hrun. cbv zeta in Hrun.
    rewrite Hresp in Hrun. rewrite Hrun. cbn [fst snd].
    split; [reflexivity|]. split.
    + intros Hne. apply Z.eqb_neq in Hne. rewrite Hne. eexists. split; [reflexivity|].
      apply status_message_contains.
    + intros Heq. apply Z.eqb_eq in Heq. rewrite Heq.
      destruct (json_Unmarshal_details env (Body response)) as [derr|[|d rest]];
        [|reflexivity|reflexivity].
      eexists. split; [reflexivity|]. apply contains_app_l, contains_refl.
Qed.

Lemma crash_service_error_contract_witness :
  fst (analyze.fetchApplications "tok" 20 env_ok [])
  = [EHttpGet (analyze.raygunAPIBase ++ "/applications?count=" ++ fmt_d 20)
       (analyze.headers "tok") (inr (mkResponse 200 "apps"))]
  /\ (200 <> 200 ->
        exists e, snd (analyze.fetchApplications "tok" 20 env_ok []) = Err e
                  /\ contains (fmt_d 200) e /\ contains "apps" e)
  /\ (200 = 200 ->
        match json_Unmarshal_applications env_ok "apps" with
        | inl derr => exists e, snd (analyze.fetchApplications "tok" 20 env_ok []) = Err e
                                /\ contains derr e
        | inr a => snd (analyze.fetchApplications "tok" 20 env_ok []) = Ok a
        end).
Proof.
  apply (proj1 (crash_service_error_contract "tok" env_ok []) 20 (mkResponse 200 "apps")).
  reflexivity.
Defined.

(** C5 as stated fails for the detail call: the service answers 200 with
    the body [[]], the body decodes (to the empty list), and the call
    still fails. *)
Lemma getErrorReportDetail_empty_list_fails :
  env_http env_empty []
    (analyze.raygunAPIBase ++ "/applications/a2/error-groups/g2/errors?count=1")
    (analyze.headers "tok") = inr (mkResponse 200 "[]")
  /\ json_Unmarshal_details env_empty "[]" = inr []
  /\ snd (analyze.getErrorReportDetail "tok" "a2" "g2" env_empty [])
     = Err "no error details found"
  /\ ~ exists d, snd (analyze.getErrorReportDetail "tok" "a2" "g2" env_empty []) = Ok d.
Proof.
  split; [reflexivity|]. split; [reflexivity|]. split; [reflexivity|].
  intros (d & Hd). vm_compute in Hd. discriminate.
Qed.

(** ** The repository check *)

Lemma review_resolveRepo_run (v : ai_review.Vars) env h abs :
  filepath_Abs env (ai_review.flagRepoPath v) = inr abs ->
  let st := env_stat env h (filepath_Join abs ".git") in
  ai_review.start_resolveRepo v env h
  = ([EStat (filepath_Join abs ".git") st],
     if os_IsNotExist st then Err ("not a git repository: " ++ abs) else Ok abs).
Proof.
  intros Habs st. unfold ai_review.start_resolveRepo.
  erewrite bind_ok by reflexivity. cbn [fst snd List.app]. rewrite Habs, app_nil_r.
  erewrite bind_ok by reflexivity. cbn [fst snd]. fold st.
  destruct (os_IsNotExist st); reflexivity.
Qed.

Lemma analyze_resolveRepo_run (v : analyze.Vars) env h abs :
  filepath_Abs env (analyze.repoPath v) = inr abs ->
  let st := env_stat env h (filepath_Join abs ".git") in
  analyze.start_resolveRepo v env h
  = ([EStat (filepath_Join abs ".git") st],
     if os_IsNotExist st then Err ("not a git repository: " ++ abs) else Ok abs).
Proof.
  intros Habs st. unfold analyze.start_resolveRepo.
  erewrite bind_ok by reflexivity. cbn [fst snd List.app]. rewrite Habs, app_nil_r.
  erewrite bind_ok by reflexivity. cbn [fst snd]. fold st.
  destruct (os_IsNotExist st); reflexivity.
Qed.

(** X18.  What the repository check does for each answer of the stat.
    For a repo path that resolves to [abs], in both pipelines: when the
    stat of [abs/.git] finds the entry, the resolution succeeds with
    [abs]; when it fails with a not-exist error, the resolution, and with
    it [start], fails with "not a git repository: abs"; when it fails
    with any other error, the resolution succeeds with [abs]. *)
Theorem repo_check_rejects_only_not_exist env h abs :
  (forall v : ai_review.Vars,
      filepath_Abs env (ai_review.flagRepoPath v) = inr abs ->
      let st := env_stat env h (filepath_Join abs ".git") in
      (st = StatOk -> snd (ai_review.start_resolveRepo v env h) = Ok abs)
      /\ (st = StatErr ENOENT ->
            snd (ai_review.start_resolveRepo v env h) = Err ("not a git repository: " ++ abs)
            /\ snd (ai_review.start v env h) = Err ("not a git repository: " ++ abs)
            /\ NotAGitRepoError ("not a git repository: " ++ abs))
      /\ (forall errno, st = StatErr errno -> errno <> ENOENT ->
            snd (ai_review.start_resolveRepo v env h) = Ok abs))
  /\ (forall v : analyze.Vars,
         filepath_Abs env (analyze.repoPath v) = inr abs ->
         let st := env_stat env h (filepath_Join abs ".git") in
         (st = StatOk -> snd (analyze.start_resolveRepo v env h) = Ok abs)
         /\ (st = StatErr ENOENT ->
               snd (analyze.start_resolveRepo v env h) = Err ("not a git repository: " ++ abs)
               /\ (forall token, analyze.start_token v env h = ([], Ok token) ->
                     snd (analyze.start v env h) = Err ("not a git repository: " ++ abs))
               /\ NotAGitRepoError ("not a git repository: " ++ abs))
         /\ (forall errno, st = StatErr errno -> errno <> ENOENT ->
               snd (analyze.start_resolveRepo v env h) = Ok abs)).
Proof.
  split.
  - intros v Habs st. pose proof (review_resolveRepo_run v env h abs Habs) as Hrun.
    cbv zeta in Hrun. fold st in Hrun. split; [|split].
    + intros Hst. rewrite Hrun, Hst. reflexivity.
    + intros Hst. rewrite Hst in Hrun. cbn [os_IsNotExist] in Hrun. split; [|split].
      * rewrite Hrun. reflexivity.
      * unfold ai_review.start. erewrite bind_err by exact Hrun. reflexivity.
      * now exists abs.
    + intros errno Hst Hne. rewrite Hrun, Hst. destruct errno; try reflexivity. now elim Hne.
  - intros v Habs st. pose proof (analyze_resolveRepo_run v env h abs Habs) as Hrun.
    cbv zeta in Hrun. fold st in Hrun. split; [|split].
    + intros Hst. rewrite Hrun, Hst. reflexivity.
    + intros Hst. rewrite Hst in Hrun. cbn [os_IsNotExist] in Hrun. split; [|split].
      * rewrite Hrun. reflexivity.
      * intros token Htok. unfold analyze.start. erewrite bind_ok by exact Htok.
        rewrite app_nil_r. erewrite bind_err by exact Hrun. reflexivity.
      * now exists abs.
    + intros errno Hst Hne. rewrite Hrun, Hst. destruct errno; try reflexivity. now elim Hne.
Qed.

Lemma repo_check_rejects_only_not_exist_witness :
  snd (ai_review.start_resolveRepo review_vars_ok env_ok []) = Ok "/repo"
  /\ snd (analyze.start_resolveRepo vars_file env_file []) = Ok "/etc/hostname".
Proof.
  split.
  - apply (proj1 (repo_check_rejects_only_not_exist env_ok [] "/repo") review_vars_ok eq_refl).
    reflexivity.
  - apply (proj2 (repo_check_rejects_only_not_exist env_file [] "/etc/hostname") vars_file
             eq_refl) with (errno := ENOTDIR).
    + reflexivity.
    + discriminate.
Defined.

(** C8 at a failing input.  The repo path names a regular file, so it
    has no [.git] entry and the stat of [.git] under it fails with
    ENOTDIR.  The check that is to verify that the path is a git
    repository tests the stat's error with [os.IsNotExist] alone, which
    ENOTDIR does not meet: the check passes and the resolution succeeds
    in both pipelines, where the path should have been rejected as not a
    git repository. *)
Theorem repo_check_passes_without_git_entry :
  env_stat env_file [] (filepath_Join "/etc/hostname" ".git") = StatErr ENOTDIR
  /\ ai_review.start_resolveRepo review_vars_file env_file []
     = ([EStat "/etc/hostname/.git" (StatErr ENOTDIR)], Ok "/etc/hostname")
  /\ analyze.start_resolveRepo vars_file env_file []
     = ([EStat "/etc/hostname/.git" (StatErr ENOTDIR)], Ok "/etc/hostname")
  /\ ~ (exists e, snd (ai_review.start_resolveRepo review_vars_file env_file []) = Err e
                  /\ NotAGitRepoError e).
Proof.
  split; [reflexivity|]. split; [reflexivity|]. split; [reflexivity|].
  intros (e & He & _). vm_compute in He. discriminate.
Qed.

(** ** Selecting the project named by the flag *)

Lemma Find_Some {A} (l : list A) (p : A -> bool) (a : A) :
  lo.Find l p = Some a -> In a l /\ p a = true.
Proof.
  induction l as [|x l IH]; simpl; [discriminate|].
  destruct (p x) eqn:E.
  - intros [= <-]. auto.
  - intros H. destruct (IH H). auto.
Qed.

Lemma Find_None {A} (l : list A) (p : A -> bool) :
  lo.Find l p = None -> forall a, In a l -> p a = false.
Proof.
  induction l as [|x l IH]; simpl; [contradiction|].
  destruct (p x) eqn:E; [discriminate|].
  intros H a [<-|Ha]; auto.
Qed.

(** C10, as the code has it.  With a non-empty project flag and the
    applications fetched, nothing is printed and nothing is read: the run
    of the selection is the request alone.  An empty list of applications
    fails with "no applications found".  Otherwise the selection succeeds
    with an application of the list whose name equals the flag, when there
    is one, and fails with an error naming the requested project when
    there is none. *)
Theorem project_flag_selects_by_name (v : analyze.Vars) (token : string) env h t1 apps :
  analyze.raygunProject v <> EmptyString ->
  analyze.fetchApplications token 20 env h = (t1, Ok apps) ->
  let run := analyze.chooseRaygunApplication v token env h in
  fst run = t1 /\ printed (fst run) = [] /\ scans (fst run) = []
  /\ (apps = [] -> snd run = Err "no applications found")
  /\ ((exists a, In a apps /\ types.app_Name a = analyze.raygunProject v) ->
        exists a, snd run = Ok a /\ In a apps /\ types.app_Name a = analyze.raygunProject v)
  /\ (apps <> [] ->
        (forall a, In a apps -> types.app_Name a <> analyze.raygunProject v) ->
        snd run = Err ("raygun project '" ++ analyze.raygunProject v ++ "' not found")
        /\ contains (analyze.raygunProject v)
             ("raygun project '" ++ analyze.raygunProject v ++ "' not found")).
Proof.
  intros Hflag Hfetch run.
  pose proof (fetchApplications_run token 20 env h) as Hshape. cbv zeta in Hshape.
  rewrite Hfetch in Hshape. injection Hshape as Ht1 _.
  assert (Hrun : run = (t1,
            if len_slice apps =? 0 then Err "no applications found"
            else match lo.Find apps (fun a => String.eqb (types.app_Name a) (analyze.raygunProject v)) with
                 | Some a => Ok a
                 | None => Err ("raygun project '" ++ analyze.raygunProject v ++ "' not found")
                 end)).
  { unfold run, analyze.chooseRaygunApplication.
    erewrite bind_ok by (apply wrap_ok; exact Hfetch). cbn [fst snd].
    destruct (len_slice apps =? 0); [now rewrite app_nil_r|].
    apply String.eqb_neq in Hflag. rewrite Hflag. cbn [negb].
    destruct (lo.Find apps _); now rewrite app_nil_r. }
  rewrite Hrun. cbn [fst snd]. split; [reflexivity|].
  split; [now rewrite Ht1|]. split; [now rewrite Ht1|]. split; [|split].
  - intros ->. reflexivity.
  - intros (a & Ha & Hname).
    destruct (len_slice apps =? 0) eqn:E.
    { apply len_slice_zero in E. subst apps. contradiction. }
    destruct (lo.Find apps _) as [b|] eqn:F.
    + apply Find_Some in F as [Hb Hn]. apply String.eqb_eq in Hn. now exists b.
    + apply Find_None with (a := a) in F; [|exact Ha].
      apply String.eqb_neq in F. contradiction.
  - intros Hne Hnone.
    destruct (len_slice apps =? 0) eqn:E.
    { apply len_slice_zero in E. contradiction. }
    destruct (lo.Find apps _) as [b|] eqn:F.
    + apply Find_Some in F as [Hb Hn]. apply String.eqb_eq in Hn. now elim (Hnone b Hb).
    + split; [reflexivity|]. now exists "raygun project '", "' not found".
Qed.

Lemma project_flag_selects_by_name_witness :
  let run := analyze.chooseRaygunApplication vars_project "tok" env_ok [] in
  fst run = fst (analyze.fetchApplications "tok" 20 env_ok [])
  /\ printed (fst run) = [] /\ scans (fst run) = []
  /\ (sample_apps = [] -> snd run = Err "no applications found")
  /\ ((exists a, In a sample_apps /\ types.app_Name a = "MyApp-prod") ->
        exists a, snd run = Ok a /\ In a sample_apps /\ types.app_Name a = "MyApp-prod")
  /\ (sample_apps <> [] ->
        (forall a, In a sample_apps -> types.app_Name a <> "MyApp-prod") ->
        snd run = Err ("raygun project '" ++ "MyApp-prod" ++ "' not found")
        /\ contains "MyApp-prod" ("raygun project '" ++ "MyApp-prod" ++ "' not found")).
Proof.
  apply (project_flag_selects_by_name vars_project "tok" env_ok []).
  - discriminate.
  - vm_compute. reflexivity.
Defined.

(** C10 as stated fails when the service returns no application: no
    fetched application has the requested name, and the error does not
    name the project. *)
Lemma project_flag_empty_list_error :
  analyze.fetchApplications "tok" 20 env_empty []
  = ([EHttpGet (analyze.raygunAPIBase ++ "/applications?count=" ++ fmt_d 20)
        (analyze.headers "tok") (inr (mkResponse 200 "[]"))], Ok [])
  /\ snd (analyze.chooseRaygunApplication vars_project "tok" env_empty [])
     = Err "no applications found"
  /\ ~ contains (analyze.raygunProject vars_project) "no applications found".
Proof.
  split; [reflexivity|]. split; [reflexivity|].
  intros H. apply containsb_complete in H. vm_compute in H. discriminate.
Qed.

(** ** The prompt renderer *)




(** A bare [{{.CrashDetails}}] would not do: a byte slice is printed as
    the list of its bytes. *)
Example bare_field_on_bytes :
  template.Execute [template.Field "CrashDetails"]
    (analyze.promptData_fields (analyze.mkPromptData "m" "{}" "/repo/RaygunError.md"))
  = inr "[123 125]".
Proof. reflexivity. Qed.




(** ** Truncation of the crash message *)

(** The displayed message has at most 80 bytes. *)
Lemma truncateMessage_length (msg : string) : len (analyze.truncateMessage msg) <= 80.
Proof.
  unfold analyze.truncateMessage, len.
  destruct (Z.ltb_spec 80 (Z.of_nat (String.length msg))) as [Hlong|Hshort]; [|exact Hshort].
  rewrite length_append. pose proof (length_substring_le msg 0 77). simpl String.length. lia.
Qed.

(** C3 at a failing input.  The message is valid UTF-8 and 81 bytes
    long; byte 77 is the second byte of a two-byte character, so the cut
    [msg[:77]] keeps the first byte of that character and drops the
    second: the displayed form has 80 bytes and is not valid UTF-8. *)
Theorem truncation_splits_character :
  utf8.ValidString split_message = true
  /\ len split_message = 81
  /\ utf8.splits split_message 77 = true
  /\ analyze.truncateMessage split_message
     = letters76 ++ String (ascii_of_nat 195) "..."
  /\ len (analyze.truncateMessage split_message) = 80
  /\ utf8.ValidString (analyze.truncateMessage split_message) = false
  /\ analyze.errorGroupLine 0 split_group
     = "  1. [3 occurrences] " ++ letters76 ++ String (ascii_of_nat 195) "..." ++ nl.
Proof. repeat split; vm_compute; reflexivity. Qed.

(** ** The best-effort fetch and pull *)

(** A failed best-effort command after which only the confirmation is
    printed is not surfaced. *)
Lemma not_surfaced (branchName : string) pre mode c r err post :
  best_effort c ->
  exec_err r = Some err ->
  (forall line, In line (printed post) -> line = "Checked out branch: " ++ branchName ++ nl) ->
  ~ failures_surfaced branchName (pre +++ EExec mode c r :: post).
Proof.
  intros Hc Hr Hpost Hs.
  destruct (Hs pre mode c r err post eq_refl Hc Hr) as (line & Hin & Hne).
  apply Hne, Hpost, Hin.
Qed.

(** C6, as the code has it.  Whatever [git fetch] and [git pull]
    answer, [checkoutBranch] succeeds when the checkout succeeds, and
    fails with the checkout's error otherwise: a failed fetch or pull
    does not abort the run.  Such a failure is ignored: the one line
    printed by a run that succeeds is the confirmation, a run that fails
    prints nothing, and so a failed fetch or pull is not surfaced. *)
Theorem checkoutBranch_ignores_fetch_and_pull (repoDir branchName : string) env h :
  let fetchCmd := Command (Some repoDir) "git" ["fetch"; "--all"] in
  let checkoutCmd := Command (Some repoDir) "git" ["checkout"; branchName] in
  let pullCmd := Command (Some repoDir) "git" ["pull"] in
  let fetched := env_exec env h Run fetchCmd in
  let co := env_exec env (h +++ [EExec Run fetchCmd fetched]) CombinedOutput checkoutCmd in
  let pulled :=
    env_exec env ((h +++ [EExec Run fetchCmd fetched])
                    +++ [EExec CombinedOutput checkoutCmd co]) Run pullCmd in
  let run := analyze.checkoutBranch repoDir branchName env h in
  (exec_err co = None ->
     run = ([EExec Run fetchCmd fetched;
             EExec CombinedOutput checkoutCmd co;
             EExec Run pullCmd pulled;
             EPrint ("Checked out branch: " ++ branchName ++ nl)], Ok tt)
     /\ printed (fst run) = ["Checked out branch: " ++ branchName ++ nl]
     /\ (exec_err fetched <> None \/ exec_err pulled <> None ->
           ~ failures_surfaced branchName (fst run)))
  /\ (forall err, exec_err co = Some err ->
        run = ([EExec Run fetchCmd fetched; EExec CombinedOutput checkoutCmd co],
               Err ("failed to checkout branch " ++ branchName ++ ": " ++ err ++ nl
                      ++ exec_out co))
        /\ printed (fst run) = []).
Proof.
  intros fetchCmd checkoutCmd pullCmd fetched co pulled run.
  assert (Hrun : run
                 = match exec_err co with
                   | Some err =>
                       ([EExec Run fetchCmd fetched; EExec CombinedOutput checkoutCmd co],
                        Err ("failed to checkout branch " ++ branchName ++ ": " ++ err ++ nl
                               ++ exec_out co))
                   | None =>
                       ([EExec Run fetchCmd fetched;
                         EExec CombinedOutput checkoutCmd co;
                         EExec Run pullCmd pulled;
                         EPrint ("Checked out branch: " ++ branchName ++ nl)], Ok tt)
                   end).
  { unfold run, analyze.checkoutBranch.
    erewrite bind_ok by reflexivity. erewrite bind_ok by reflexivity.
    cbn [fst snd List.app]. fold fetchCmd checkoutCmd fetched. fold co.
    destruct (exec_err co); [reflexivity|].
    erewrite bind_ok by reflexivity. reflexivity. }
  clearbody run. split.
  - intros Hco. rewrite Hco in Hrun. subst run. cbn [fst]. split; [reflexivity|].
    split; [reflexivity|].
    assert (Hfetch : best_effort fetchCmd) by (split; [reflexivity | now left]).
    assert (Hpull : best_effort pullCmd) by (split; [reflexivity | now right]).
    intros [Hf|Hp].
    + destruct (exec_err fetched) as [err|] eqn:E; [|now elim Hf].
      apply (not_surfaced branchName [] Run fetchCmd fetched err); [exact Hfetch | exact E |].
      intros line [<-|[]]. reflexivity.
    + destruct (exec_err pulled) as [err|] eqn:E; [|now elim Hp].
      apply (not_surfaced branchName
               [EExec Run fetchCmd fetched; EExec CombinedOutput checkoutCmd co]
               Run pullCmd pulled err); [exact Hpull | exact E |].
      intros line [<-|[]]. reflexivity.
  - intros err Hco. rewrite Hco in Hrun. subst run. split; reflexivity.
Qed.

Lemma checkoutBranch_ignores_fetch_and_pull_witness :
  snd (analyze.checkoutBranch "/repo" "feature" env_offline []) = Ok tt
  /\ printed (fst (analyze.checkoutBranch "/repo" "feature" env_offline []))
     = ["Checked out branch: " ++ "feature" ++ nl]
  /\ ~ failures_surfaced "feature" (fst (analyze.checkoutBranch "/repo" "feature" env_offline [])).
Proof.
  destruct (proj1 (checkoutBranch_ignores_fetch_and_pull "/repo" "feature" env_offline [])
              eq_refl) as (Hrun & Hprinted & Hsilent).
  split; [exact (f_equal snd Hrun)|]. split; [exact Hprinted|].
  apply Hsilent. left. discriminate.
Defined.

(** C6 as stated fails.  The fetch and the pull both fail.  The run is
    not aborted, but the output is the confirmation line alone: neither
    failure is surfaced as a warning. *)
Lemma checkoutBranch_swallows_failures :
  analyze.checkoutBranch "/repo" "main" env_offline []
  = ([EExec Run (Command (Some "/repo") "git" ["fetch"; "--all"])
        (mkExecResult EmptyString (Some "exit status 128"));
      EExec CombinedOutput (Command (Some "/repo") "git" ["checkout"; "main"])
        (mkExecResult EmptyString None);
      EExec Run (Command (Some "/repo") "git" ["pull"])
        (mkExecResult EmptyString (Some "exit status 1"));
      EPrint ("Checked out branch: main" ++ nl)], Ok tt)
  /\ printed (fst (analyze.checkoutBranch "/repo" "main" env_offline []))
     = ["Checked out branch: main" ++ nl]
  /\ ~ failures_surfaced "main" (fst (analyze.checkoutBranch "/repo" "main" env_offline [])).
Proof.
  split; [reflexivity|]. split; [reflexivity|].
  apply (not_surfaced "main" [] Run (Command (Some "/repo") "git" ["fetch"; "--all"])
           (mkExecResult EmptyString (Some "exit status 128")) "exit status 128").
  - split; [reflexivity | now left].
  - reflexivity.
  - intros line [<-|[]]. reflexivity.
Qed.

(** ** The output publisher *)

(** [LaunchClaude] runs the assistant and returns its error if it has
    one.  Otherwise it stats the output file: when the stat fails nothing
    is opened; when it succeeds the command run is [open <file>], and a
    warning is printed if that command fails.  The result is success in
    each of these cases.  The environment, and with it the operating
    system, is arbitrary: the command is [open] on every system. *)
Lemma LaunchClaude_publishes (repoDir outputFilePath prompt : string) (model : option string)
    env h :
  exists c r st o,
    cmd_name c = "claude"
    /\ claude.LaunchClaude repoDir outputFilePath prompt model env h
       = match exec_err r with
         | Some err => ([EExec Run c r], Err ("failed to run claude: " ++ err))
         | None =>
             match st with
             | StatErr _ => ([EExec Run c r; EStat outputFilePath st], Ok tt)
             | StatOk =>
                 ([EExec Run c r; EStat outputFilePath st;
                   EPrint ("Opening output file: " ++ outputFilePath ++ nl);
                   EExec Run (Command None "open" [outputFilePath]) o]
                  +++ match exec_err o with
                      | Some err =>
                          [EPrint ("Warning: could not open output file: " ++ err ++ nl)]
                      | None => []
                      end, Ok tt)
             end
         end.
Proof.
  unfold claude.LaunchClaude.
  erewrite bind_ok by reflexivity. cbn [fst snd].
  match goal with |- context [EExec Run ?c ?r] => exists c, r end.
  destruct (exec_err _) as [err|].
  - exists StatOk, (mkExecResult EmptyString None). split; reflexivity.
  - erewrite bind_ok by reflexivity. cbn [fst snd].
    match goal with |- context [EStat _ ?st] => exists st; destruct st as [|errno] end.
    + erewrite bind_ok by reflexivity. erewrite bind_ok by reflexivity. cbn [fst snd].
      match goal with |- context [EExec Run (Command None _ _) ?o] => exists o end.
      split; [reflexivity|]. destruct (exec_err _); reflexivity.
    + exists (mkExecResult EmptyString None). split; reflexivity.
Qed.

(** C9 at a failing input.  On Linux, with the output file written, each
    of the three launchers runs the macOS command [open] on it; the
    command is not found there, a warning is printed and the result is
    success. *)
Theorem opener_is_hardcoded :
  runtime_GOOS env_linux = "linux"
  /\ claude.LaunchClaude "/repo" "/repo/Review.md" "p" None env_linux []
     = ([EExec Run (CommandStdio (Some "/repo") "claude"
                      ["--model=Sonnet"; "--dangerously-skip-permissions"; "-p"; "p"])
           (mkExecResult EmptyString None);
         EStat "/repo/Review.md" StatOk;
         EPrint ("Opening output file: /repo/Review.md" ++ nl);
         EExec Run (Command None "open" ["/repo/Review.md"])
           (mkExecResult EmptyString (Some "exec: open: executable file not found in $PATH"));
         EPrint ("Warning: could not open output file: "
                   ++ "exec: open: executable file not found in $PATH" ++ nl)], Ok tt)
  /\ map cmd_name
       (commands (fst (ai_review.launchClaudeReview review_vars_ok "/repo" "feature" "+x"
                         env_linux [])))
     = ["claude"; "open"]
  /\ snd (ai_review.launchClaudeReview review_vars_ok "/repo" "feature" "+x" env_linux [])
     = Ok tt
  /\ map cmd_name
       (commands (fst (analyze.launchClaudeErrorAnalysis vars_ok "/repo" "/repo/RaygunError.md"
                         sample_detail env_linux [])))
     = ["claude"; "open"]
  /\ snd (analyze.launchClaudeErrorAnalysis vars_ok "/repo" "/repo/RaygunError.md"
            sample_detail env_linux [])
     = Ok tt.
Proof. repeat split; vm_compute; reflexivity. Qed.

(** * Beyond the claims *)

(** ** Invariants, step by step *)

Section Always.

Context {env : Env} (P : event -> Prop).

Lemma always_ret {A} (a : A) : always env P (ret a).
Proof. intros h. constructor. Qed.

Lemma always_fail {A} (e : error) : always env P (@fail A e).
Proof. intros h. constructor. Qed.

Lemma always_panic {A} (msg : string) : always env P (@panic A msg).
Proof. intros h. constructor. Qed.

Lemma always_ask {A} (f : Env -> A) : always env P (ask f).
Proof. intros h. constructor. Qed.

Lemma always_bind {A B} (m : IO A) (f : A -> IO B) :
  always env P m ->
  (forall a, returns env m a -> always env P (f a)) ->
  always env P (bind m f).
Proof.
  intros Hm Hf h. unfold bind. specialize (Hm h).
  destruct (m env h) as [t1 [a|e|msg]] eqn:E; cbn [fst] in *; try exact Hm.
  assert (Hret : returns env m a) by (exists h; now rewrite E).
  specialize (Hf a Hret (h +++ t1)).
  destruct (f a env (h +++ t1)) as [t2 r']. cbn [fst] in *.
  apply Forall_app. now split.
Qed.

Lemma always_wrap {A} (ctx : string) (m : IO A) :
  always env P m -> always env P (wrap ctx m).
Proof.
  intros Hm h. unfold wrap. specialize (Hm h).
  destruct (m env h) as [t1 [a|e|msg]]; exact Hm.
Qed.

Lemma always_Print (s : string) : P (EPrint s) -> always env P (Print s).
Proof. intros HP h. repeat constructor. exact HP. Qed.

Lemma always_Println (s : string) : P (EPrint (s ++ nl)) -> always env P (Println s).
Proof. intros HP h. repeat constructor. exact HP. Qed.

Lemma always_Scanf (format : string) :
  (forall r, P (EScanf format r)) -> always env P (Scanf format).
Proof. intros HP h. repeat constructor. apply HP. Qed.

Lemma always_os_Stat (path : string) :
  (forall r, P (EStat path r)) -> always env P (os_Stat path).
Proof. intros HP h. repeat constructor. apply HP. Qed.

Lemma always_exec (mode : ExecMode) (c : Cmd) :
  (forall r, P (EExec mode c r)) -> always env P (exec mode c).
Proof. intros HP h. repeat constructor. apply HP. Qed.

Lemma always_http_Get (url : string) (headers : list (string * string)) :
  (forall r, P (EHttpGet url headers r)) -> always env P (http_Get url headers).
Proof. intros HP h. repeat constructor. apply HP. Qed.

Lemma always_index {A} (l : list A) (i : Z) : always env P (index l i).
Proof.
  intros h. unfold index. destruct (i <? 0); [constructor|].
  destruct (nth_error l (Z.to_nat i)); constructor.
Qed.

Lemma always_for_range {A} (l : list A) (body : Z -> A -> IO unit) :
  (forall i x, always env P (body i x)) ->
  forall i, always env P (for_range i l body).
Proof.
  intros Hbody. induction l as [|x l IH]; intros i; cbn [for_range].
  - apply always_ret.
  - apply always_bind; [apply Hbody | intros _ _; apply IH].
Qed.

End Always.

Lemma returns_ret {A} env (a b : A) : returns env (ret a) b -> b = a.
Proof. intros (h & H). cbn in H. now injection H. Qed.

Lemma returns_ask {A} env (f : Env -> A) (b : A) : returns env (ask f) b -> b = f env.
Proof. intros (h & H). cbn in H. now injection H. Qed.

Lemma returns_wrap {A} env ctx (m : IO A) (a : A) :
  returns env (wrap ctx m) a -> returns env m a.
Proof.
  intros (h & H). exists h. unfold wrap in H.
  destruct (m env h) as [t [x|e|msg]]; cbn [snd] in *; congruence.
Qed.

Lemma returns_bind {A B} env (m : IO A) (f : A -> IO B) (b : B) :
  returns env (bind m f) b -> exists a, returns env m a /\ returns env (f a) b.
Proof.
  intros (h & H). unfold bind in H.
  destruct (m env h) as [t1 [a|e|msg]] eqn:E; try discriminate.
  exists a. split; [exists h; now rewrite E|].
  exists (h +++ t1). now destruct (f a env (h +++ t1)).
Qed.

(** One structural step of an invariant proof. *)
Ltac always_step :=
  cbv beta zeta;
  lazymatch goal with
  | |- always _ _ (bind _ _) => apply always_bind; [|intros ? ?]
  | |- always _ _ (wrap _ _) => apply always_wrap
  | |- always _ _ (ret _) => apply always_ret
  | |- always _ _ (fail _) => apply always_fail
  | |- always _ _ (panic _) => apply always_panic
  | |- always _ _ (ask _) => apply always_ask
  | |- always _ _ (index _ _) => apply always_index
  | |- always _ _ (Print _) => apply always_Print
  | |- always _ _ (Println _) => apply always_Println
  | |- always _ _ (Scanf _) => apply always_Scanf; intros ?
  | |- always _ _ (os_Stat _) => apply always_os_Stat; intros ?
  | |- always _ _ (exec _ _) => apply always_exec; intros ?
  | |- always _ _ (http_Get _ _) => apply always_http_Get; intros ?
  | |- always _ _ (for_range _ _ _) => apply always_for_range; intros ? ?
  | |- always _ _ (match ?x with _ => _ end) => destruct x eqn:?
  | |- always _ _ (if ?b then _ else _) => destruct b eqn:?
  end.

(** ** The review pipeline touches nothing but the diff *)

Lemma review_resolveRepo_returns (v : ai_review.Vars) env repoPath :
  returns env (ai_review.start_resolveRepo v) repoPath ->
  filepath_Abs env (ai_review.flagRepoPath v) = inr repoPath.
Proof.
  intros (h & H). unfold ai_review.start_resolveRepo, bind, ask, os_Stat in H.
  cbn [fst snd] in H. destruct (filepath_Abs env (ai_review.flagRepoPath v)); [discriminate|].
  cbn [fst snd] in H. destruct (os_IsNotExist _); [discriminate|].
  cbn in H. now injection H as <-.
Qed.

Ltac review_git_side :=
  unfold review_git_args;
  first [ left; reflexivity
        | right; left; reflexivity
        | right; right; eexists; split;
          [| (left; reflexivity) + (right; left; reflexivity)
             + (right; right; left; reflexivity) + (right; right; right; reflexivity) ];
          ((left; reflexivity) + (right; reflexivity)) ].

Ltac review_side :=
  cbn [review_event cmd_name cmd_dir cmd_stdio cmd_args Command CommandStdio];
  repeat match goal with
         | |- context [match exec_err ?r with _ => _ end] => destruct (exec_err r)
         end;
  first [ exact I
        | left; split; [reflexivity|]; split; [reflexivity|]; split; [reflexivity|];
          review_git_side
        | right; left; split; [reflexivity|]; split; [reflexivity|]; split; [reflexivity|];
          eexists; reflexivity
        | right; right; repeat split; reflexivity ].

(** X1.  The review pipeline only prints, stats and runs commands: it
    makes no HTTP request and never reads standard input.  Every [git]
    command it runs is run in the repository without the terminal, with
    one of these argument lists: [rev-parse --abbrev-ref HEAD],
    [rev-parse --verify origin/<target>], and [diff] or [diff --stat]
    followed by [<ref>...HEAD] or [<ref>], where [<ref>] is
    [origin/<target>] or [<target>] and [<target>] is the target flag as
    it was given.  The assistant runs in the repository with the
    terminal attached, with the model, the permission switch and one
    prompt as arguments; [open] is run on Review.md of the repository. *)
Theorem review_pipeline_events (v : ai_review.Vars) env h repo :
  filepath_Abs env (ai_review.flagRepoPath v) = inr repo ->
  Forall (review_event (ai_review.flagTargetBranch v) repo) (fst (ai_review.start v env h)).
Proof.
  intros Habs. revert h.
  change (always env (review_event (ai_review.flagTargetBranch v) repo) (ai_review.start v)).
  unfold ai_review.start. apply always_bind.
  { unfold ai_review.start_resolveRepo. repeat (always_step; try review_side). }
  intros repoPath Hret. apply review_resolveRepo_returns in Hret.
  rewrite Habs in Hret. injection Hret as <-.
  unfold ai_review.getCurrentBranch, ai_review.getDiff, ai_review.launchClaudeReview.
  repeat (always_step; try review_side).
Qed.

(** ** The errors pipeline: requests, commands and reads *)

Lemma start_token_run (v : analyze.Vars) env h :
  analyze.start_token v env h
  = ([], let token := if String.eqb (analyze.raygunToken v) EmptyString
                      then os_Getenv env "RAYGUN_TOKEN" else analyze.raygunToken v in
         if String.eqb token EmptyString
         then Err "raygun token required: use --token flag or set RAYGUN_TOKEN environment variable"
         else Ok token).
Proof.
  unfold analyze.start_token, bind, ask, ret, fail. cbv zeta.
  destruct (String.eqb (analyze.raygunToken v) EmptyString); cbn [fst snd List.app];
    match goal with |- context [String.eqb ?t EmptyString] =>
      destruct (String.eqb t EmptyString) end; reflexivity.
Qed.

Lemma analyze_resolveRepo_returns (v : analyze.Vars) env absRepoPath :
  returns env (analyze.start_resolveRepo v) absRepoPath ->
  filepath_Abs env (analyze.repoPath v) = inr absRepoPath.
Proof.
  intros (h & H). unfold analyze.start_resolveRepo, bind, ask, os_Stat in H.
  cbn [fst snd] in H. destruct (filepath_Abs env (analyze.repoPath v)); [discriminate|].
  cbn [fst snd] in H. destruct (os_IsNotExist _); [discriminate|].
  cbn in H. now injection H as <-.
Qed.

Ltac unfold_errors :=
  unfold analyze.start_resolveRepo, analyze.start_fetch, analyze.start_analyze,
    analyze.chooseRaygunApplication, analyze.chooseErrorGroup, analyze.fetchApplications,
    analyze.listErrorGroups, analyze.getErrorReportDetail, analyze.checkoutBranch,
    analyze.launchClaudeErrorAnalysis.

(** X2.  Every HTTP request of the errors pipeline goes to a URL under
    the API base of the crash service and carries exactly the two headers
    [Authorization: Bearer <token>] and [Content-Type: application/json],
    with the token [start] resolved. *)
Theorem errors_pipeline_requests (v : analyze.Vars) env h token :
  analyze.start_token v env h = ([], Ok token) ->
  Forall (bearer_request token) (fst (analyze.start v env h)).
Proof.
  intros Htok. unfold analyze.start. erewrite bind_ok by exact Htok. cbn [fst List.app].
  generalize (h +++ []). change (always env (bearer_request token)
    (absRepoPath <- analyze.start_resolveRepo v ;;
     fetched <- analyze.start_fetch v token ;;
     analyze.start_analyze v token absRepoPath (fst fetched) (snd fetched))).
  unfold_errors.
  repeat (always_step;
          try (cbn [bearer_request]; first [exact I | split; [reflexivity | apply prefix_append]])).
Qed.

Ltac errors_side :=
  cbn [errors_command cmd_name cmd_dir cmd_stdio cmd_args Command CommandStdio];
  first [ exact I
        | left; repeat split;
          [ match goal with
            | H : negb (String.eqb _ _) = true |- _ =>
                apply negb_true_iff, String.eqb_neq in H; exact H
            end
          | auto ]
        | right; left; repeat split; reflexivity
        | right; right; split; reflexivity ].

(** X3.  The commands of the errors pipeline: [git] is run only when
    the branch flag is given, in the repository, and only as [fetch
    --all], [checkout <branch>] or [pull]; the only other commands are
    the assistant, run in the repository with the terminal attached, and
    [open] on RaygunError.md of the repository. *)
Theorem errors_pipeline_commands (v : analyze.Vars) env h repo :
  filepath_Abs env (analyze.repoPath v) = inr repo ->
  Forall (errors_command v repo) (fst (analyze.start v env h)).
Proof.
  intros Habs. revert h. change (always env (errors_command v repo) (analyze.start v)).
  unfold analyze.start. apply always_bind.
  { unfold analyze.start_token. repeat (always_step; try errors_side). }
  intros token _. apply always_bind.
  { unfold analyze.start_resolveRepo. repeat (always_step; try errors_side). }
  intros absRepoPath Hret. apply analyze_resolveRepo_returns in Hret.
  rewrite Habs in Hret. injection Hret as <-.
  unfold_errors.
  repeat (always_step; try errors_side).
Qed.

Section Reads.

Context {env : Env}.

Lemma reads_of_no_scan {A} (m : IO A) (n : nat) :
  always env no_scan m -> reads_at_most env n m.
Proof.
  intros Hm h. specialize (Hm h). induction Hm as [|e tr He _ IH]; cbn; [lia|].
  destruct e; cbn in *; try exact IH. contradiction.
Qed.

Lemma reads_bind {A B} (n1 n2 : nat) (m : IO A) (f : A -> IO B) :
  reads_at_most env n1 m ->
  (forall a, reads_at_most env n2 (f a)) ->
  reads_at_most env (n1 + n2) (bind m f).
Proof.
  intros Hm Hf h. unfold bind. specialize (Hm h).
  destruct (m env h) as [t1 [a|e|msg]]; cbn [fst] in *; try lia.
  specialize (Hf a (h +++ t1)). destruct (f a env (h +++ t1)) as [t2 r']. cbn [fst] in *.
  rewrite scans_app, length_app. lia.
Qed.

Lemma reads_wrap {A} (n : nat) ctx (m : IO A) :
  reads_at_most env n m -> reads_at_most env n (wrap ctx m).
Proof.
  intros Hm h. unfold wrap. specialize (Hm h).
  destruct (m env h) as [t1 [a|e|msg]]; exact Hm.
Qed.

End Reads.

Ltac no_scan_steps := repeat (always_step; try exact I).

Lemma chooseErrorGroup_reads env gs : reads_at_most env 1 (analyze.chooseErrorGroup gs).
Proof.
  intros h. destruct (chooseErrorGroup_run gs env h) as (r & res & -> & _). cbn [fst].
  rewrite scans_app. unfold errorGroupMenu. cbn [scans flat_map List.app].
  fold (scans (map (fun ig => EPrint (analyze.errorGroupLine (fst ig) (snd ig)))
                 (numbered 0 gs) +++ [EPrint (nl ++ "Select error group number: ")])).
  rewrite scans_app, scans_prints. cbn. lia.
Qed.

Lemma fetchApplications_no_scan env token count :
  always env no_scan (analyze.fetchApplications token count).
Proof. unfold analyze.fetchApplications. no_scan_steps. Qed.

Lemma after_scan_no_scan {A} env (items : list A) r : always env no_scan (after_scan items r).
Proof. unfold after_scan. no_scan_steps. Qed.

Lemma chooseRaygunApplication_reads env v token :
  reads_at_most env 1 (analyze.chooseRaygunApplication v token)
  /\ (analyze.raygunProject v <> EmptyString ->
      reads_at_most env 0 (analyze.chooseRaygunApplication v token)).
Proof.
  split.
  - unfold analyze.chooseRaygunApplication.
    apply (reads_bind 0 1); [apply reads_wrap, reads_of_no_scan, fetchApplications_no_scan|].
    intros apps. destruct (len_slice apps =? 0); [apply reads_of_no_scan; no_scan_steps|].
    destruct (negb _); [apply reads_of_no_scan; no_scan_steps|].
    apply (reads_bind 0 1); [apply reads_of_no_scan; no_scan_steps|]. intros _.
    apply (reads_bind 0 1); [apply reads_of_no_scan; no_scan_steps|]. intros _.
    apply (reads_bind 0 1); [apply reads_of_no_scan; no_scan_steps|]. intros _.
    apply (reads_bind 1 0).
    + intros h. cbn. lia.
    + intros r. apply reads_of_no_scan. apply (after_scan_no_scan env apps r).
  - intros Hflag. apply String.eqb_neq in Hflag. apply reads_of_no_scan.
    unfold analyze.chooseRaygunApplication, analyze.fetchApplications.
    apply always_bind; [no_scan_steps|]. intros apps _.
    destruct (len_slice apps =? 0); [no_scan_steps|].
    rewrite Hflag. cbn [negb]. no_scan_steps.
Qed.

(** X4.  A run of the errors pipeline reads standard input at most
    twice, and at most once when the project is named by the flag:
    neither selection is asked again. *)
Theorem errors_pipeline_reads (v : analyze.Vars) env h :
  (List.length (scans (fst (analyze.start v env h))) <= 2)%nat
  /\ (analyze.raygunProject v <> EmptyString ->
      (List.length (scans (fst (analyze.start v env h))) <= 1)%nat).
Proof.
  assert (Htok : reads_at_most env 0 (analyze.start_token v)).
  { apply reads_of_no_scan. unfold analyze.start_token. no_scan_steps. }
  assert (Hrepo : reads_at_most env 0 (analyze.start_resolveRepo v)).
  { apply reads_of_no_scan. unfold analyze.start_resolveRepo. no_scan_steps. }
  assert (Hlist : forall token a, reads_at_most env 0
            (Print ("Selected raygun project: " ++ types.app_Name a ++ nl ++ nl) ;;;
             errorGroups <- wrap "error fetching crash reports: " (analyze.listErrorGroups token a) ;;
             ret (a, errorGroups))).
  { intros token a. apply reads_of_no_scan. unfold analyze.listErrorGroups. no_scan_steps. }
  assert (Hana : forall token abs a gs, reads_at_most env 1 (analyze.start_analyze v token abs a gs)).
  { intros token abs a gs. unfold analyze.start_analyze.
    destruct (len_slice gs =? 0); [apply reads_of_no_scan; no_scan_steps|]. cbv zeta.
    destruct (len_slice _ =? 0); [apply reads_of_no_scan; no_scan_steps|].
    apply (reads_bind 1 0); [apply reads_wrap, chooseErrorGroup_reads|].
    intros g. apply reads_of_no_scan.
    unfold analyze.getErrorReportDetail, analyze.checkoutBranch, analyze.launchClaudeErrorAnalysis.
    no_scan_steps. }
  split.
  - revert h. change (reads_at_most env 2 (analyze.start v)). unfold analyze.start.
    apply (reads_bind 0 2); [exact Htok|]. intros token.
    apply (reads_bind 0 2); [exact Hrepo|]. intros abs.
    apply (reads_bind 1 1); [|intros fetched; apply Hana].
    unfold analyze.start_fetch.
    apply (reads_bind 1 0); [apply reads_wrap, chooseRaygunApplication_reads|].
    intros a. apply Hlist.
  - intros Hflag. revert h. change (reads_at_most env 1 (analyze.start v)). unfold analyze.start.
    apply (reads_bind 0 1); [exact Htok|]. intros token.
    apply (reads_bind 0 1); [exact Hrepo|]. intros abs.
    apply (reads_bind 0 1); [|intros fetched; apply Hana].
    unfold analyze.start_fetch.
    apply (reads_bind 0 0); [apply reads_wrap, chooseRaygunApplication_reads, Hflag|].
    intros a. apply Hlist.
Qed.

(** ** What [getDiff] returns *)

Ltac failed_last_command :=
  cbn [List.app];
  (eexists [_; _; _] + eexists [_; _; _; _] + eexists [_; _; _; _; _]);
  eexists _, _, _; split; [reflexivity|]; split; [eassumption|].

(** X5.  What [getDiff] returns.  On success the text is the two fixed
    headers around the outputs of a stat diff and of a full diff that
    both succeeded in this run.  On failure the last command run is the
    one whose error is reported: after a failed [--stat] diff the message
    starts with "failed to get diff stats: " and no full diff was run at
    all; after a failed full diff it starts with "failed to get diff: ".
    [getDiff] never panics. *)
Theorem getDiff_outcome (repoDir branchName targetBranch : string) env h :
  let run := ai_review.getDiff repoDir branchName targetBranch env h in
  match snd run with
  | Ok d =>
      exists cs rs cd rd x y,
        d = "=== DIFF STATS ===" ++ nl ++ exec_out rs ++ nl ++ nl
              ++ "=== FULL DIFF ===" ++ nl ++ exec_out rd
        /\ In (EExec Output cs rs) (fst run) /\ exec_err rs = None
        /\ cmd_args cs = ["diff"; "--stat"; x]
        /\ In (EExec Output cd rd) (fst run) /\ exec_err rd = None
        /\ cmd_args cd = ["diff"; y]
  | Err e =>
      exists pre c r err,
        fst run = pre +++ [EExec Output c r] /\ exec_err r = Some err
        /\ ((exists x, cmd_args c = ["diff"; "--stat"; x])
            /\ e = "failed to get diff stats: " ++ err
            /\ Forall (fun c' => forall y, cmd_args c' <> ["diff"; y]) (commands (fst run))
            \/ (exists y, cmd_args c = ["diff"; y]) /\ e = "failed to get diff: " ++ err)
  | Panic _ => False
  end.
Proof.
  unfold ai_review.getDiff. cbv zeta.
  erewrite bind_ok by reflexivity. erewrite bind_ok by reflexivity. cbn [fst snd].
  match goal with |- context [EExec Run ?c ?r] => set (chk := r) end.
  set (ref := match exec_err chk with Some _ => targetBranch | None => "origin/" ++ targetBranch end).
  clearbody ref. clearbody chk.
  match goal with |- context [fst ?X] => remember X as run eqn:Hrun end.
  destruct run as [tr res]. cbn [fst snd].
  unfold bind, exec, ret, fail in Hrun.
  repeat match type of Hrun with
         | context [exec_err ?r] =>
             let E := fresh "E" in destruct (exec_err r) eqn:E; cbn [fst snd] in Hrun
         end.
  all: cbn [List.app] in Hrun; injection Hrun as -> ->; cbv beta iota.
  all: try (eexists _, _, _, _, _, _; split; [reflexivity|];
            cbn [In List.app]; repeat split; first [reflexivity | eauto 10]; fail).
  all: failed_last_command.
  all: first [ left; split; [eexists; reflexivity|]; split; [reflexivity|];
               cbn [commands flat_map List.app];
               repeat constructor; intros y; cbn; discriminate
             | right; split; [eexists; reflexivity | reflexivity] ].
Qed.

Lemma getDiff_returns_marked (repoDir branchName targetBranch : string) env d :
  returns env (ai_review.getDiff repoDir branchName targetBranch) d ->
  contains "=" d.
Proof.
  intros (h & Hd). pose proof (getDiff_outcome repoDir branchName targetBranch env h) as H.
  cbv zeta in H. rewrite Hd in H. destruct H as (cs & rs & cd & rd & x & y & -> & _).
  now exists EmptyString, ("== DIFF STATS ===" ++ nl ++ exec_out rs ++ nl ++ nl
                          ++ "=== FULL DIFF ===" ++ nl ++ exec_out rd).
Qed.

(** ** The empty-diff exit of the review pipeline *)

Ltac other_line :=
  let E := fresh "E" in
  intros E; injection E as E; cbn in E; discriminate E.

(** X6.  The empty-diff exit of [start] is never taken.  The text
    [getDiff] returns always holds its headers, so, as long as
    [strings.TrimSpace] does not return the empty string for a text that
    holds an equals sign, [start] never prints "No differences found
    between branches.". *)
Theorem review_never_reports_no_differences (v : ai_review.Vars) env h :
  (forall s, contains "=" s -> strings_TrimSpace env s <> EmptyString) ->
  ~ In (EPrint noDifferences) (fst (ai_review.start v env h)).
Proof.
  intros Htrim Hin.
  assert (Hall : always env (fun e => e <> EPrint noDifferences) (ai_review.start v)).
  { unfold ai_review.start. apply always_bind.
    { unfold ai_review.start_resolveRepo. repeat (always_step; try discriminate). }
    intros repoPath _.
    apply always_bind; [always_step; other_line|]. intros _ _.
    apply always_bind.
    { unfold ai_review.getCurrentBranch. repeat (always_step; try discriminate). }
    intros branchName _.
    apply always_bind; [always_step; other_line|]. intros _ _.
    apply always_bind.
    { unfold ai_review.getDiff. repeat (always_step; try discriminate; try other_line). }
    intros diff Hdiff. apply returns_wrap, getDiff_returns_marked in Hdiff.
    apply always_bind; [always_step|]. intros trimmed Htrimmed.
    apply returns_ask in Htrimmed. subst trimmed.
    destruct (String.eqb (strings_TrimSpace env diff) EmptyString) eqn:E.
    { apply String.eqb_eq in E. now elim (Htrim diff Hdiff). }
    unfold ai_review.launchClaudeReview.
    repeat (always_step; try discriminate; try other_line). }
  specialize (Hall h). rewrite Forall_forall in Hall. now apply (Hall _ Hin).
Qed.

Lemma review_never_reports_no_differences_witness :
  ~ In (EPrint noDifferences) (fst (ai_review.start review_vars_ok env_ok [])).
Proof.
  apply review_never_reports_no_differences.
  intros s (pre & post & ->) E. destruct pre; discriminate E.
Defined.

Lemma review_pipeline_events_witness :
  Forall (review_event "main" "/repo") (fst (ai_review.start review_vars_ok env_ok [])).
Proof. apply (review_pipeline_events review_vars_ok env_ok [] "/repo"). reflexivity. Defined.

Lemma errors_pipeline_requests_witness :
  Forall (bearer_request "tok") (fst (analyze.start vars_ok env_ok [])).
Proof. apply errors_pipeline_requests. reflexivity. Defined.

Lemma errors_pipeline_commands_witness :
  Forall (errors_command vars_ok "/repo") (fst (analyze.start vars_ok env_ok [])).
Proof. apply errors_pipeline_commands. reflexivity. Defined.

Lemma errors_pipeline_reads_witness :
  (List.length (scans (fst (analyze.start vars_project env_ok []))) <= 1)%nat.
Proof. apply (proj2 (errors_pipeline_reads vars_project env_ok [])). discriminate. Defined.

Lemma getDiff_outcome_witness :
  let run := ai_review.getDiff "/repo" "feature" "main" env_ok [] in
  match snd run with
  | Ok d =>
      exists cs rs cd rd x y,
        d = "=== DIFF STATS ===" ++ nl ++ exec_out rs ++ nl ++ nl
              ++ "=== FULL DIFF ===" ++ nl ++ exec_out rd
        /\ In (EExec Output cs rs) (fst run) /\ exec_err rs = None
        /\ cmd_args cs = ["diff"; "--stat"; x]
        /\ In (EExec Output cd rd) (fst run) /\ exec_err rd = None
        /\ cmd_args cd = ["diff"; y]
  | Err e =>
      exists pre c r err,
        fst run = pre +++ [EExec Output c r] /\ exec_err r = Some err
        /\ ((exists x, cmd_args c = ["diff"; "--stat"; x])
            /\ e = "failed to get diff stats: " ++ err
            /\ Forall (fun c' => forall y, cmd_args c' <> ["diff"; y]) (commands (fst run))
            \/ (exists y, cmd_args c = ["diff"; y]) /\ e = "failed to get diff: " ++ err)
  | Panic _ => False
  end.
Proof. apply (getDiff_outcome "/repo" "feature" "main" env_ok []). Defined.

(** ** The branch under review *)

Ltac lookup_side :=
  cbn [not_current_branch_lookup cmd_args Command CommandStdio];
  first [ exact I | discriminate ].

(** X7.  The branch under review.  With the branch flag given, [git
    rev-parse --abbrev-ref HEAD] is never run.  Without it, the lookup is
    the first command after the repository check: if it fails, [start]
    ends there with "failed to get current branch: " and its error;
    otherwise the branch printed next is its output with surrounding
    space trimmed. *)
Theorem current_branch_lookup (v : ai_review.Vars) env h :
  (ai_review.flagBranch v <> EmptyString ->
   Forall not_current_branch_lookup (fst (ai_review.start v env h)))
  /\ (ai_review.flagBranch v = EmptyString ->
      forall t1 repo,
        ai_review.start_resolveRepo v env h = (t1, Ok repo) ->
        exists r,
          let lookup :=
            [EPrint ("Reviewing repository: " ++ repo ++ nl);
             EExec Output (Command (Some repo) "git" ["rev-parse"; "--abbrev-ref"; "HEAD"]) r] in
          match exec_err r with
          | Some err =>
              ai_review.start v env h
              = (t1 +++ lookup, Err ("failed to get current branch: " ++ err))
          | None =>
              exists rest,
                fst (ai_review.start v env h)
                = t1 +++ lookup
                  +++ EPrint ("Branch: " ++ strings_TrimSpace env (exec_out r)
                                ++ " (comparing against " ++ ai_review.flagTargetBranch v
                                ++ ")" ++ nl) :: rest
          end).
Proof.
  split.
  - intros Hflag. apply String.eqb_neq in Hflag. revert h.
    change (always env not_current_branch_lookup (ai_review.start v)).
    unfold ai_review.start. rewrite Hflag.
    unfold ai_review.start_resolveRepo, ai_review.getDiff, ai_review.launchClaudeReview.
    repeat (always_step; try lookup_side).
  - intros Hflag t1 repo Hrepo. unfold ai_review.start.
    erewrite bind_ok by exact Hrepo. erewrite bind_ok by reflexivity. cbn [fst snd].
    rewrite Hflag. cbn [String.eqb]. unfold ai_review.getCurrentBranch.
    match goal with
    | |- context [exec Output ?c] =>
        match goal with
        | |- context [bind (wrap ?ctx ?m) ?k ?env' ?h'] =>
            set (r := env_exec env h' Output c); exists r;
            assert (Hm : m env' h'
                         = ([EExec Output c r],
                            match exec_err r with
                            | Some err => Err err
                            | None => Ok (strings_TrimSpace env (exec_out r))
                            end))
        end
    end.
    { erewrite bind_ok by reflexivity. cbn [fst snd]. fold r.
      destruct (exec_err r); reflexivity. }
    cbv zeta. destruct (exec_err r) as [err|].
    + erewrite bind_err by (apply wrap_err; exact Hm). reflexivity.
    + erewrite bind_ok by (apply wrap_ok; exact Hm).
      erewrite bind_ok by reflexivity. cbn [fst snd].
      eexists. rewrite <- !app_assoc. cbn [List.app]. reflexivity.
Qed.

Lemma current_branch_lookup_witness :
  Forall not_current_branch_lookup (fst (ai_review.start review_vars_ok env_ok []))
  /\ exists r,
       let lookup :=
         [EPrint ("Reviewing repository: " ++ "/repo" ++ nl);
          EExec Output (Command (Some "/repo") "git" ["rev-parse"; "--abbrev-ref"; "HEAD"]) r] in
       match exec_err r with
       | Some err =>
           ai_review.start review_vars_current env_ok []
           = ([EStat "/repo/.git" StatOk] +++ lookup,
              Err ("failed to get current branch: " ++ err))
       | None =>
           exists rest,
             fst (ai_review.start review_vars_current env_ok [])
             = [EStat "/repo/.git" StatOk] +++ lookup
               +++ EPrint ("Branch: " ++ strings_TrimSpace env_ok (exec_out r)
                             ++ " (comparing against "
                             ++ ai_review.flagTargetBranch review_vars_current
                             ++ ")" ++ nl) :: rest
       end.
Proof.
  split.
  - apply (proj1 (current_branch_lookup review_vars_ok env_ok [])). discriminate.
  - apply (proj2 (current_branch_lookup review_vars_current env_ok [])
             eq_refl [EStat "/repo/.git" StatOk] "/repo").
    reflexivity.
Defined.

(** ** The token *)

(** X8.  The token.  A non-empty token flag is used as it is; an empty
    one falls back to the environment variable RAYGUN_TOKEN; when both
    are empty [start] fails with the token-required message before it
    touches the file system or the network. *)
Theorem token_resolution (v : analyze.Vars) env h :
  (analyze.raygunToken v <> EmptyString ->
   analyze.start_token v env h = ([], Ok (analyze.raygunToken v)))
  /\ (analyze.raygunToken v = EmptyString -> os_Getenv env "RAYGUN_TOKEN" <> EmptyString ->
      analyze.start_token v env h = ([], Ok (os_Getenv env "RAYGUN_TOKEN")))
  /\ (analyze.raygunToken v = EmptyString -> os_Getenv env "RAYGUN_TOKEN" = EmptyString ->
      analyze.start v env h = ([], Err tokenRequired)).
Proof.
  rewrite start_token_run. cbv zeta. split; [|split].
  - intros Hflag. apply String.eqb_neq in Hflag. now rewrite Hflag, Hflag.
  - intros Hflag Henv. apply String.eqb_neq in Henv. rewrite Hflag. cbn [String.eqb].
    now rewrite Henv.
  - intros Hflag Henv. unfold analyze.start. erewrite bind_err; [reflexivity|].
    rewrite start_token_run, Hflag. cbn [String.eqb]. rewrite Henv. reflexivity.
Qed.

Lemma token_resolution_witness :
  analyze.start_token vars_ok env_ok [] = ([], Ok "tok")
  /\ analyze.start vars_no_token env_ok [] = ([], Err tokenRequired).
Proof.
  split.
  - apply (proj1 (token_resolution vars_ok env_ok [])). discriminate.
  - apply (proj2 (proj2 (token_resolution vars_no_token env_ok []))); reflexivity.
Defined.

(** ** A refused request ends the run *)

(** X9.  A refused request ends the run.  When the token and the
    repository are in order and the service answers the applications
    request with a status other than 200, [start] makes that one request
    and nothing more, and fails with the status code and the body, under
    the two prefixes its callers add. *)
Theorem refused_applications_request_aborts (v : analyze.Vars) env h token t2 abs response :
  analyze.start_token v env h = ([], Ok token) ->
  analyze.start_resolveRepo v env h = (t2, Ok abs) ->
  env_http env (h +++ t2) (analyze.raygunAPIBase ++ "/applications?count=" ++ fmt_d 20)
    (analyze.headers token) = inr response ->
  StatusCode response <> 200 ->
  analyze.start v env h
  = (t2 +++ [EHttpGet (analyze.raygunAPIBase ++ "/applications?count=" ++ fmt_d 20)
               (analyze.headers token) (inr response)],
     Err ("error selecting project: " ++ "failed to fetch applications: "
            ++ "raygun API returned status " ++ fmt_d (StatusCode response) ++ ": "
            ++ Body response)).
Proof.
  intros Htok Hrepo Hresp Hcode. apply Z.eqb_neq in Hcode.
  unfold analyze.start. erewrite bind_ok by exact Htok. cbn [List.app fst snd].
  rewrite app_nil_r. erewrite bind_ok by exact Hrepo. cbn [fst snd].
  erewrite bind_err; [cbn [fst snd]; reflexivity|].
  unfold analyze.start_fetch. erewrite bind_err; [reflexivity|].
  apply wrap_err. unfold analyze.chooseRaygunApplication. erewrite bind_err; [reflexivity|].
  apply wrap_err. rewrite fetchApplications_run. cbv zeta. rewrite Hresp, Hcode. reflexivity.
Qed.

(** ** The project named by the flag: the first of that name *)

Lemma Find_first {A} (l : list A) (p : A -> bool) (a : A) :
  lo.Find l p = Some a ->
  exists pre post, l = (pre ++ a :: post)%list /\ Forall (fun x => p x = false) pre /\ p a = true.
Proof.
  induction l as [|x l IH]; simpl; [discriminate|].
  destruct (p x) eqn:E.
  - intros [= <-]. exists [], l. auto.
  - intros H. destruct (IH H) as (pre & post & -> & Hpre & Ha).
    exists (x :: pre), post. auto.
Qed.

(** X10.  With the project flag given, the application selected is the
    first of the fetched list whose name equals the flag: no application
    before it in the list has that name. *)
Theorem project_flag_selects_first (v : analyze.Vars) (token : string) env h t1 apps a :
  analyze.raygunProject v <> EmptyString ->
  analyze.fetchApplications token 20 env h = (t1, Ok apps) ->
  snd (analyze.chooseRaygunApplication v token env h) = Ok a ->
  exists pre post,
    apps = (pre ++ a :: post)%list
    /\ Forall (fun x => types.app_Name x <> analyze.raygunProject v) pre
    /\ types.app_Name a = analyze.raygunProject v.
Proof.
  intros Hflag Hfetch Hres. apply String.eqb_neq in Hflag.
  unfold analyze.chooseRaygunApplication in Hres.
  erewrite bind_ok in Hres by (apply wrap_ok; exact Hfetch). cbn [fst snd] in Hres.
  destruct (len_slice apps =? 0); [discriminate|].
  rewrite Hflag in Hres. cbn [negb] in Hres.
  destruct (lo.Find apps _) as [b|] eqn:F; [|discriminate].
  cbn in Hres. injection Hres as ->.
  apply Find_first in F as (pre & post & -> & Hpre & Ha).
  exists pre, post. split; [reflexivity|]. split.
  - eapply Forall_impl; [|exact Hpre]. intros x Hx. now apply String.eqb_neq.
  - now apply String.eqb_eq.
Qed.

Lemma project_flag_selects_first_witness :
  exists pre post,
    sample_apps = (pre ++ types.mkRaygunApplication "a2" "MyApp-prod" :: post)%list
    /\ Forall (fun x => types.app_Name x <> analyze.raygunProject vars_project) pre
    /\ types.app_Name (types.mkRaygunApplication "a2" "MyApp-prod")
       = analyze.raygunProject vars_project.
Proof.
  eapply (project_flag_selects_first vars_project "tok" env_ok []).
  - discriminate.
  - vm_compute. reflexivity.
  - reflexivity.
Defined.

Lemma refused_applications_request_aborts_witness :
  analyze.start vars_ok env_unauthorized []
  = ([EStat "/repo/.git" StatOk]
     +++ [EHttpGet (analyze.raygunAPIBase ++ "/applications?count=" ++ fmt_d 20)
            (analyze.headers "tok") (inr (mkResponse 401 "Unauthorized"))],
     Err ("error selecting project: " ++ "failed to fetch applications: "
            ++ "raygun API returned status " ++ fmt_d 401 ++ ": " ++ "Unauthorized")).
Proof.
  apply (refused_applications_request_aborts vars_ok env_unauthorized [] "tok"
           [EStat "/repo/.git" StatOk] "/repo" (mkResponse 401 "Unauthorized")).
  - reflexivity.
  - reflexivity.
  - reflexivity.
  - cbn. discriminate.
Defined.

(** ** The detail fetched is that of the chosen group *)

Lemma chooseErrorGroup_nonempty env h t g :
  analyze.chooseErrorGroup [] env h = (t, Ok g) -> False.
Proof.
  intros H. destruct (chooseErrorGroup_run [] env h) as (r & res & Hrun & Hsel).
  rewrite H in Hrun. injection Hrun as _ <-.
  destruct r as [err|n]; cbn in Hsel.
  - destruct Hsel as (e & He & _). discriminate.
  - destruct Hsel as [_ Hout]. destruct Hout as (e & He & _); [lia | discriminate].
Qed.

(** X11.  The detail fetched is that of the choice: once a crash group
    is chosen, the run goes on by printing its message and requesting the
    errors of that group of the selected application, with the token. *)
Theorem detail_request_follows_choice (v : analyze.Vars) (token abs : string) raygunApp gs
    env h t g :
  analyze.chooseErrorGroup (filter (fun x => String.eqb (types.eg_Status x) "active") gs) env h
  = (t, Ok g) ->
  exists r rest,
    fst (analyze.start_analyze v token abs raygunApp gs env h)
    = t +++ [EPrint (nl ++ "Analyzing crash: " ++ types.eg_Message g ++ nl);
             EHttpGet (detailURL raygunApp g) (analyze.headers token) r] +++ rest.
Proof.
  intros Hchoose. unfold analyze.start_analyze. rewrite Filter_isActive.
  destruct (len_slice gs =? 0) eqn:Egs.
  { apply len_slice_zero in Egs. subst gs. now apply chooseErrorGroup_nonempty in Hchoose. }
  cbv zeta. destruct (len_slice (filter _ gs) =? 0) eqn:Eact.
  { apply len_slice_zero in Eact. rewrite Eact in Hchoose.
    now apply chooseErrorGroup_nonempty in Hchoose. }
  cbv beta iota.
  erewrite bind_ok by (apply wrap_ok; exact Hchoose).
  erewrite bind_ok by reflexivity. cbn [fst snd].
  match goal with
  | |- context [analyze.getErrorReportDetail ?a ?b ?c] =>
      match goal with
      | |- context [bind (wrap ?ctx (analyze.getErrorReportDetail a b c)) ?k ?env' ?h'] =>
          pose proof (getErrorReportDetail_run a b c env' h') as Hrun; cbv zeta in Hrun;
          destruct (bind (wrap ctx (analyze.getErrorReportDetail a b c)) k env' h')
            as [tr res] eqn:Hbind
      end
  end.
  unfold bind in Hbind at 1. unfold wrap in Hbind at 1. rewrite Hrun in Hbind.
  match type of Hbind with
  | context [match ?o with Ok _ => _ | Err _ => _ | Panic _ => _ end] => destruct o
  end.
  - match type of Hbind with
    | (let (_, _) := ?X in _) = _ => destruct X as [t2 r2]
    end.
    injection Hbind as <- _. cbn [fst List.app]. eexists _, _.
    rewrite <- !app_assoc. cbn [List.app]. reflexivity.
  - injection Hbind as <- _. cbn [fst List.app]. eexists _, [].
    rewrite <- !app_assoc. cbn [List.app]. reflexivity.
  - injection Hbind as <- _. cbn [fst List.app]. eexists _, [].
    rewrite <- !app_assoc. cbn [List.app]. reflexivity.
Qed.

(** ** The shape of a truncated message *)

Lemma length_substring_0 (s : string) (n : nat) :
  (n <= String.length s)%nat -> String.length (substring 0 n s) = n.
Proof.
  revert n. induction s as [|c s IH]; intros n Hn.
  - destruct n; [reflexivity | simpl in Hn; lia].
  - destruct n as [|n]; [reflexivity|]. simpl in *. rewrite IH; lia.
Qed.

Lemma get_substring_0_append (s t : string) (n i : nat) :
  (i < n)%nat -> String.get i (substring 0 n s ++ t) = String.get i s \/ (String.length s <= i)%nat.
Proof.
  revert n i. induction s as [|c s IH]; intros n i Hi.
  - right. simpl. lia.
  - destruct n as [|n]; [lia|]. destruct i as [|i]; [left; reflexivity|].
    cbn [substring String.append String.get]. destruct (IH n i) as [H|H]; [lia | now left |].
    right. simpl. lia.
Qed.

Lemma substring_after_prefix (a b : string) (m : nat) :
  substring (String.length a) m (a ++ b) = substring 0 m b.
Proof. induction a as [|c a IH]; [reflexivity | exact IH]. Qed.

(** X12.  The shape of a displayed message.  A message of at most 80
    bytes is displayed as it is.  A longer one is displayed in exactly 80
    bytes: its first 77 bytes followed by three dots.  Truncating twice
    is truncating once. *)
Theorem truncateMessage_shape (msg : string) :
  (len msg <= 80 -> analyze.truncateMessage msg = msg)
  /\ (80 < len msg ->
      len (analyze.truncateMessage msg) = 80
      /\ (forall i, (i < 77)%nat ->
            String.get i (analyze.truncateMessage msg) = String.get i msg)
      /\ substring 77 3 (analyze.truncateMessage msg) = "...")
  /\ analyze.truncateMessage (analyze.truncateMessage msg) = analyze.truncateMessage msg.
Proof.
  assert (Hshort : len msg <= 80 -> analyze.truncateMessage msg = msg).
  { intros H. unfold analyze.truncateMessage.
    destruct (Z.ltb_spec 80 (len msg)); [lia | reflexivity]. }
  assert (Hlong : 80 < len msg ->
                  analyze.truncateMessage msg = substring 0 77 msg ++ "..."
                  /\ String.length (substring 0 77 msg) = 77%nat).
  { intros H. unfold analyze.truncateMessage.
    destruct (Z.ltb_spec 80 (len msg)); [|lia].
    split; [reflexivity|]. apply length_substring_0. unfold len in H. lia. }
  assert (Hlen : 80 < len msg -> len (analyze.truncateMessage msg) = 80).
  { intros H. destruct (Hlong H) as [-> H77]. unfold len. rewrite length_append, H77.
    reflexivity. }
  split; [exact Hshort|]. split.
  - intros H. split; [now apply Hlen|]. destruct (Hlong H) as [-> H77]. split.
    + intros i Hi. destruct (get_substring_0_append msg "..." 77 i Hi) as [G|G]; [exact G|].
      unfold len in H. lia.
    + rewrite <- H77 at 1. apply substring_after_prefix.
  - destruct (Z.ltb_spec 80 (len msg)) as [H|H].
    + unfold analyze.truncateMessage at 1. rewrite (Hlen H). reflexivity.
    + now rewrite (Hshort H), (Hshort H).
Qed.

Lemma truncateMessage_shape_witness :
  (len split_message <= 80 -> analyze.truncateMessage split_message = split_message)
  /\ (80 < len split_message ->
      len (analyze.truncateMessage split_message) = 80
      /\ (forall i, (i < 77)%nat ->
            String.get i (analyze.truncateMessage split_message) = String.get i split_message)
      /\ substring 77 3 (analyze.truncateMessage split_message) = "...")
  /\ analyze.truncateMessage (analyze.truncateMessage split_message)
     = analyze.truncateMessage split_message.
Proof. apply (truncateMessage_shape split_message). Defined.

Lemma is_ascii_append (a b : string) :
  is_ascii a = true -> is_ascii b = true -> is_ascii (a ++ b) = true.
Proof.
  intros Ha Hb. induction a as [|c a IH]; [exact Hb|].
  cbn [is_ascii String.append] in *. apply andb_true_iff in Ha as [Hc Ha].
  now rewrite Hc, IH.
Qed.

Lemma is_ascii_substring (s : string) (n m : nat) :
  is_ascii s = true -> is_ascii (substring n m s) = true.
Proof.
  revert n m. induction s as [|c s IH]; intros n m Hs.
  - now destruct n, m.
  - cbn [is_ascii] in Hs. apply andb_true_iff in Hs as [Hc Hs].
    destruct n as [|n]; [destruct m as [|m]|]; cbn [substring is_ascii]; auto.
    now rewrite Hc, IH.
Qed.

Lemma is_ascii_valid (s : string) : is_ascii s = true -> utf8.ValidString s = true.
Proof.
  unfold utf8.ValidString. induction s as [|c s IH]; intros Hs; [reflexivity|].
  cbn [is_ascii] in Hs. apply andb_true_iff in Hs as [Hc Hs].
  cbn [utf8.scan]. cbv zeta. rewrite Hc. now apply IH.
Qed.

(** X13.  A message of ASCII bytes only stays so when truncated, and
    its displayed form is valid UTF-8: a cut can only split a character
    of a message that has multi-byte characters. *)
Theorem truncateMessage_keeps_ascii_valid (msg : string) :
  is_ascii msg = true ->
  is_ascii (analyze.truncateMessage msg) = true
  /\ utf8.ValidString (analyze.truncateMessage msg) = true.
Proof.
  intros Hmsg.
  assert (H : is_ascii (analyze.truncateMessage msg) = true).
  { unfold analyze.truncateMessage. destruct (80 <? len msg); [|exact Hmsg].
    apply is_ascii_append; [now apply is_ascii_substring | reflexivity]. }
  split; [exact H | now apply is_ascii_valid].
Qed.

Lemma truncateMessage_keeps_ascii_valid_witness :
  is_ascii (analyze.truncateMessage (letters76 ++ letters76)) = true
  /\ utf8.ValidString (analyze.truncateMessage (letters76 ++ letters76)) = true.
Proof. apply truncateMessage_keeps_ascii_valid. vm_compute. reflexivity. Defined.

(** ** Checking out the branch *)

(** X14.  [checkoutBranch] runs the fetch, then the checkout.  It
    fails exactly when the checkout fails, with a message that holds the
    branch name, the error and the combined output of git, and then no
    pull is run.  When the checkout succeeds it runs the pull, prints
    the confirmation and succeeds. *)
Theorem checkoutBranch_outcome (repoDir branchName : string) env h :
  exists fetched co,
    let attempt :=
      [EExec Run (Command (Some repoDir) "git" ["fetch"; "--all"]) fetched;
       EExec CombinedOutput (Command (Some repoDir) "git" ["checkout"; branchName]) co] in
    match exec_err co with
    | None =>
        exists pulled,
          analyze.checkoutBranch repoDir branchName env h
          = (attempt +++ [EExec Run (Command (Some repoDir) "git" ["pull"]) pulled;
                          EPrint ("Checked out branch: " ++ branchName ++ nl)], Ok tt)
    | Some err =>
        exists e,
          analyze.checkoutBranch repoDir branchName env h = (attempt, Err e)
          /\ contains branchName e /\ contains err e /\ contains (exec_out co) e
    end.
Proof.
  unfold analyze.checkoutBranch.
  erewrite bind_ok by reflexivity. erewrite bind_ok by reflexivity. cbn [fst snd List.app].
  match goal with
  | |- context [EExec Run _ ?f :: EExec CombinedOutput _ ?c :: _] => exists f, c; set (co := c)
  end.
  cbv zeta. destruct (exec_err co) as [err|].
  - eexists. split; [reflexivity|]. split; [|split].
    + now exists "failed to checkout branch ", (": " ++ err ++ nl ++ exec_out co).
    + do 3 apply contains_app_l. apply contains_app_r, contains_refl.
    + do 5 apply contains_app_l. apply contains_refl.
  - erewrite bind_ok by reflexivity. eexists. reflexivity.
Qed.

(** ** Launching the assistant and publishing its output *)

Ltac run_cases H :=
  unfold Println in H; unfold bind, wrap, exec, os_Stat, Print, ask, ret, fail in H;
  cbn [fst snd List.app] in H;
  repeat match type of H with
         | context [match ?x with _ => _ end] =>
             lazymatch x with
             | context [match _ with _ => _ end] => fail
             | _ => destruct x eqn:?; cbn [fst snd List.app] in H
             end
         end;
  injection H as <- <-.

Ltac in_cases :=
  repeat match goal with
         | H : In _ _ |- _ => cbn [In] in H
         | H : _ \/ _ |- _ => destruct H
         | H : False |- _ => contradiction
         | H : EExec _ _ _ = EExec _ _ _ |- _ => injection H; clear H; intros; subst
         | H : EStat _ _ = EStat _ _ |- _ => injection H; clear H; intros; subst
         | H : EPrint _ = _ |- _ => discriminate H
         | H : EStat _ _ = _ |- _ => discriminate H
         | H : EExec _ _ _ = _ |- _ => discriminate H
         end.

Ltac launcher_side :=
  cbn [cmd_name cmd_args Command CommandStdio String.append] in *;
  try (exfalso; congruence);
  try match goal with
      | Ha : exec_err ?r = Some ?a, Hb : exec_err ?r = Some ?b |- _ =>
          lazymatch a with
          | b => fail
          | _ => assert (a = b) by congruence; subst
          end
      end;
  cbn [commands flat_map List.app In];
  repeat split;
  first [ reflexivity
        | repeat constructor; first [exact I | discriminate]
        | auto 10 ].

Lemma launcher_runs (repoDir outputFilePath prompt : string) (model : option string)
    (v : ai_review.Vars) (branchName diff : string)
    (w : analyze.Vars) (errorFilePath : string) (crashDetail : types.CrashReportDetail)
    env h :
  (forall tr res,
      claude.LaunchClaude repoDir outputFilePath prompt model env h = (tr, res) ->
      stops_on_assistant_failure tr res /\ publishes_best_effort outputFilePath tr res)
  /\ (forall tr res,
         ai_review.launchClaudeReview v repoDir branchName diff env h = (tr, res) ->
         stops_on_assistant_failure tr res
         /\ publishes_best_effort (filepath_Join repoDir "Review.md") tr res)
  /\ (forall tr res,
         analyze.launchClaudeErrorAnalysis w repoDir errorFilePath crashDetail env h = (tr, res) ->
         stops_on_assistant_failure tr res /\ publishes_best_effort errorFilePath tr res).
Proof.
  split; [|split]; intros tr res Hrun.
  - unfold claude.LaunchClaude in Hrun. run_cases Hrun.
    all: split; [intros c r err Hin Hname Herr | split; [intros c r Hin Hname Hok
         | split; [intros mode c r Hin Hname | intros errno Hin]]].
    all: in_cases.
    all: launcher_side.
  - unfold ai_review.launchClaudeReview in Hrun. run_cases Hrun.
    all: split; [intros c r err Hin Hname Herr | split; [intros c r Hin Hname Hok
         | split; [intros mode c r Hin Hname | intros errno Hin]]].
    all: in_cases.
    all: launcher_side.
  - unfold analyze.launchClaudeErrorAnalysis in Hrun. run_cases Hrun.
    all: split; [intros c r err Hin Hname Herr | split; [intros c r Hin Hname Hok
         | split; [intros mode c r Hin Hname | intros errno Hin]]].
    all: in_cases.
    all: launcher_side.
Qed.

(** X15.  In each of the three launchers, when the assistant exits
    with an error the launcher returns "failed to run claude: " with
    that error, the assistant is the only command run, and the output
    file is not even looked for. *)
Theorem assistant_failure_stops_publishing (repoDir : string) env h :
  (forall outputFilePath prompt model,
      stops_on_assistant_failure
        (fst (claude.LaunchClaude repoDir outputFilePath prompt model env h))
        (snd (claude.LaunchClaude repoDir outputFilePath prompt model env h)))
  /\ (forall v branchName diff,
         stops_on_assistant_failure
           (fst (ai_review.launchClaudeReview v repoDir branchName diff env h))
           (snd (ai_review.launchClaudeReview v repoDir branchName diff env h)))
  /\ (forall w errorFilePath crashDetail,
         stops_on_assistant_failure
           (fst (analyze.launchClaudeErrorAnalysis w repoDir errorFilePath crashDetail env h))
           (snd (analyze.launchClaudeErrorAnalysis w repoDir errorFilePath crashDetail env h))).
Proof.
  split; [|split].
  - intros outputFilePath prompt model.
    apply (proj1 (launcher_runs repoDir outputFilePath prompt model
                    (ai_review.mkVars EmptyString EmptyString EmptyString EmptyString)
                    EmptyString EmptyString
                    (analyze.mkVars EmptyString EmptyString EmptyString EmptyString EmptyString)
                    EmptyString sample_detail env h)).
    apply pair_eta.
  - intros v branchName diff.
    apply (proj1 (proj2 (launcher_runs repoDir EmptyString EmptyString None v branchName diff
                           (analyze.mkVars EmptyString EmptyString EmptyString EmptyString
                              EmptyString)
                           EmptyString sample_detail env h))).
    apply pair_eta.
  - intros w errorFilePath crashDetail.
    apply (proj2 (proj2 (launcher_runs repoDir EmptyString EmptyString None
                           (ai_review.mkVars EmptyString EmptyString EmptyString EmptyString)
                           EmptyString EmptyString w errorFilePath crashDetail env h))).
    apply pair_eta.
Qed.

Lemma assistant_failure_stops_publishing_witness :
  let run := analyze.launchClaudeErrorAnalysis vars_ok "/repo" "/repo/RaygunError.md"
               sample_detail env_assistant_fails [] in
  snd run = Err ("failed to run claude: " ++ "exit status 1")
  /\ commands (fst run)
     = [CommandStdio (Some "/repo") "claude"
          ["--model=Haiku"; "--dangerously-skip-permissions"; "-p";
           "Analyze TimeoutException: {crash}"]]
  /\ Forall no_stat (fst run).
Proof.
  apply (proj2 (proj2 (assistant_failure_stops_publishing "/repo" env_assistant_fails []))
           vars_ok "/repo/RaygunError.md" sample_detail
           (CommandStdio (Some "/repo") "claude"
              ["--model=Haiku"; "--dangerously-skip-permissions"; "-p";
               "Analyze TimeoutException: {crash}"])
           (mkExecResult EmptyString (Some "exit status 1")) "exit status 1").
  - vm_compute. auto.
  - reflexivity.
  - reflexivity.
Defined.

(** X16.  In each of the three launchers, publishing is best effort:
    once the assistant succeeded the result is success whatever the stat
    and [open] do; [open] is run only on the expected output file and
    only after a stat of that file succeeded; after a failed stat
    nothing is opened. *)
Theorem publishing_is_best_effort (repoDir : string) env h :
  (forall outputFilePath prompt model,
      publishes_best_effort outputFilePath
        (fst (claude.LaunchClaude repoDir outputFilePath prompt model env h))
        (snd (claude.LaunchClaude repoDir outputFilePath prompt model env h)))
  /\ (forall v branchName diff,
         publishes_best_effort (filepath_Join repoDir "Review.md")
           (fst (ai_review.launchClaudeReview v repoDir branchName diff env h))
           (snd (ai_review.launchClaudeReview v repoDir branchName diff env h)))
  /\ (forall w errorFilePath crashDetail,
         publishes_best_effort errorFilePath
           (fst (analyze.launchClaudeErrorAnalysis w repoDir errorFilePath crashDetail env h))
           (snd (analyze.launchClaudeErrorAnalysis w repoDir errorFilePath crashDetail env h))).
Proof.
  split; [|split].
  - intros outputFilePath prompt model.
    apply (proj1 (launcher_runs repoDir outputFilePath prompt model
                    (ai_review.mkVars EmptyString EmptyString EmptyString EmptyString)
                    EmptyString EmptyString
                    (analyze.mkVars EmptyString EmptyString EmptyString EmptyString EmptyString)
                    EmptyString sample_detail env h)).
    apply pair_eta.
  - intros v branchName diff.
    apply (proj1 (proj2 (launcher_runs repoDir EmptyString EmptyString None v branchName diff
                           (analyze.mkVars EmptyString EmptyString EmptyString EmptyString
                              EmptyString)
                           EmptyString sample_detail env h))).
    apply pair_eta.
  - intros w errorFilePath crashDetail.
    apply (proj2 (proj2 (launcher_runs repoDir EmptyString EmptyString None
                           (ai_review.mkVars EmptyString EmptyString EmptyString EmptyString)
                           EmptyString EmptyString w errorFilePath crashDetail env h))).
    apply pair_eta.
Qed.

Lemma publishing_is_best_effort_witness :
  snd (claude.LaunchClaude "/repo" "/repo/Review.md" "p" None env_linux []) = Ok tt.
Proof.
  apply (proj1 (proj1 (publishing_is_best_effort "/repo" env_linux [])
                  "/repo/Review.md" "p" None)
           (CommandStdio (Some "/repo") "claude"
              ["--model=Sonnet"; "--dangerously-skip-permissions"; "-p"; "p"])
           (mkExecResult EmptyString None)).
  - vm_compute. auto.
  - reflexivity.
  - reflexivity.
Defined.

(** X17.  The assistant is only ever started on a rendered prompt: in
    both pipelines, whenever the assistant command is run, the template
    parsed, its execution on the prompt data succeeded, and the command
    is [claude --model=<model> --dangerously-skip-permissions -p
    <prompt>] with that rendered text as one argument, run in the
    repository with the terminal attached. *)
Theorem assistant_gets_rendered_prompt (repoDir : string) env h :
  (forall v branchName diff mode c r,
      In (EExec mode c r) (fst (ai_review.launchClaudeReview v repoDir branchName diff env h)) ->
      cmd_name c = "claude" ->
      exists tmpl prompt,
        template_Parse env (ai_review.promptTemplate v) = inr tmpl
        /\ template.Execute tmpl
             (ai_review.promptData_fields
                (ai_review.mkPromptData branchName (ai_review.flagTargetBranch v) diff
                   (filepath_Join repoDir "Review.md"))) = inr prompt
        /\ c = CommandStdio (Some repoDir) "claude"
                 ["--model=Sonnet"; "--dangerously-skip-permissions"; "-p"; prompt])
  /\ (forall w errorFilePath crashDetail mode c r,
         In (EExec mode c r)
            (fst (analyze.launchClaudeErrorAnalysis w repoDir errorFilePath crashDetail env h)) ->
         cmd_name c = "claude" ->
         exists json tmpl prompt,
           json_MarshalIndent_detail env crashDetail = inr json
           /\ template_Parse env (analyze.promptTemplate w) = inr tmpl
           /\ template.Execute tmpl
                (analyze.promptData_fields
                   (analyze.mkPromptData (types.ei_Message (types.Error crashDetail)) json
                      errorFilePath)) = inr prompt
           /\ c = CommandStdio (Some repoDir) "claude"
                    ["--model=Haiku"; "--dangerously-skip-permissions"; "-p"; prompt]).
Proof.
  split.
  - intros v branchName diff mode c r Hin Hname.
    destruct (ai_review.launchClaudeReview v repoDir branchName diff env h) as [tr res] eqn:Hrun.
    cbn [fst] in Hin. unfold ai_review.launchClaudeReview in Hrun. run_cases Hrun.
    all: in_cases.
    all: cbn [cmd_name Command CommandStdio] in Hname; try discriminate Hname.
    all: eexists _, _; split; [reflexivity|]; split; [eassumption | reflexivity].
  - intros w errorFilePath crashDetail mode c r Hin Hname.
    destruct (analyze.launchClaudeErrorAnalysis w repoDir errorFilePath crashDetail env h)
      as [tr res] eqn:Hrun.
    cbn [fst] in Hin. unfold analyze.launchClaudeErrorAnalysis in Hrun. run_cases Hrun.
    all: in_cases.
    all: cbn [cmd_name Command CommandStdio] in Hname; try discriminate Hname.
    all: eexists _, _, _; split; [reflexivity|]; split; [reflexivity|];
         split; [eassumption | reflexivity].
Qed.

Lemma assistant_gets_rendered_prompt_witness :
  exists tmpl prompt,
    template_Parse env_ok (ai_review.promptTemplate review_vars_ok) = inr tmpl
    /\ template.Execute tmpl
         (ai_review.promptData_fields
            (ai_review.mkPromptData "feature" (ai_review.flagTargetBranch review_vars_ok) "+x"
               (filepath_Join "/repo" "Review.md"))) = inr prompt
    /\ CommandStdio (Some "/repo") "claude"
         ["--model=Sonnet"; "--dangerously-skip-permissions"; "-p";
          "Review this diff: +x and write to /repo/Review.md"]
       = CommandStdio (Some "/repo") "claude"
           ["--model=Sonnet"; "--dangerously-skip-permissions"; "-p"; prompt].
Proof.
  apply (proj1 (assistant_gets_rendered_prompt "/repo" env_ok [])
           review_vars_ok "feature" "+x" Run _ (mkExecResult EmptyString None)).
  - vm_compute. auto.
  - reflexivity.
Defined.

Lemma detail_request_follows_choice_witness :
  exists r rest,
    fst (analyze.start_analyze vars_ok "tok" "/repo"
           (types.mkRaygunApplication "a2" "MyApp-prod") sample_groups env_ok [])
    = fst (analyze.chooseErrorGroup
             (filter (fun x => String.eqb (types.eg_Status x) "active") sample_groups) env_ok [])
      +++ [EPrint (nl ++ "Analyzing crash: " ++ "KeyNotFoundException" ++ nl);
           EHttpGet (detailURL (types.mkRaygunApplication "a2" "MyApp-prod")
                       (types.mkErrorGroup "g3" "KeyNotFoundException" "active" 1))
             (analyze.headers "tok") r] +++ rest.
Proof.
  apply (detail_request_follows_choice vars_ok "tok" "/repo"
           (types.mkRaygunApplication "a2" "MyApp-prod") sample_groups env_ok [] _
           (types.mkErrorGroup "g3" "KeyNotFoundException" "active" 1)).
  vm_compute. reflexivity.
Defined.

Lemma checkoutBranch_outcome_witness :
  exists fetched co,
    let attempt :=
      [EExec Run (Command (Some "/repo") "git" ["fetch"; "--all"]) fetched;
       EExec CombinedOutput (Command (Some "/repo") "git" ["checkout"; "main"]) co] in
    match exec_err co with
    | None =>
        exists pulled,
          analyze.checkoutBranch "/repo" "main" env_offline []
          = (attempt +++ [EExec Run (Command (Some "/repo") "git" ["pull"]) pulled;
                          EPrint ("Checked out branch: " ++ "main" ++ nl)], Ok tt)
    | Some err =>
        exists e,
          analyze.checkoutBranch "/repo" "main" env_offline [] = (attempt, Err e)
          /\ contains "main" e /\ contains err e /\ contains (exec_out co) e
    end.
Proof. apply (checkoutBranch_outcome "/repo" "main" env_offline []). Defined.
